(** * A shallow embedding of [index.js]

    The script reads an image file, encodes it in base64, wraps it with a
    prompt in an Anthropic Claude 3 request body, submits that body through
    the Bedrock runtime client and extracts [content[0].text] from the JSON
    response.

    The development has two layers.

    - The platform layer models the library functions the script calls:
      [Buffer.prototype.toString('base64')] (module [Base64]),
      [TextDecoder.prototype.decode] (module [Utf8]), [JSON.stringify],
      [JSON.parse] and property access (module [JSON]).
    - The program layer (module [Script]) is the translation of
      [loadImageAsBase64] and [invokeClaude], written in a small monad that
      threads what a run can observably change (the lines written with
      [console.error], the commands handed to [client.send]) and that
      carries thrown values.

    JavaScript strings are represented by [string]: the sequence of bytes of
    their UTF-8 encoding. *)

From Stdlib Require Import String Ascii List NArith ZArith Lia Bool.
From Stdlib.Strings Require Import Byte.
From Stdlib Require Import DecimalString.
Import ListNotations.

Local Open Scope string_scope.
Local Open Scope N_scope.

(* ===================================================================== *)
(** * Base64, as produced by [buf.toString('base64')]                     *)
(* ===================================================================== *)

Module Base64.

(** The alphabet of RFC 4648, section 4. *)
Definition alphabet : string :=
  "ABCDEFGHIJKLMNOPQRSTUVWXYZabcdefghijklmnopqrstuvwxyz0123456789+/".

Definition pad : ascii := "="%char.

(** The character that stands for a 6-bit value. *)
Definition char_of_sextet (n : N) : ascii :=
  match String.get (N.to_nat n) alphabet with
  | Some c => c
  | None => pad
  end.

Fixpoint index_from (i : N) (c : ascii) (table : string) : option N :=
  match table with
  | EmptyString => None
  | String d table' =>
      if Ascii.eqb c d then Some i else index_from (N.succ i) c table'
  end.

(** The 6-bit value a character stands for, if it is in the alphabet. *)
Definition sextet_of_char (c : ascii) : option N := index_from 0 c alphabet.

(** Three input bytes form a 24-bit group, first byte in the high bits. *)
Definition group24 (a b c : N) : N :=
  N.lor (N.shiftl a 16) (N.lor (N.shiftl b 8) c).

(** The [i]-th 6-bit slice of a group, [i = 0] being the high one. *)
Definition sextet (g : N) (i : N) : N :=
  N.land (N.shiftr g (6 * (3 - i))) 63.

Definition enc (g i : N) : ascii := char_of_sextet (sextet g i).

(** [encode]: whole groups of three bytes give four characters; a last
    group of one or two bytes is filled with zero bits and padded. *)
Fixpoint encode (data : list byte) : string :=
  match data with
  | [] => ""
  | [a] =>
      let g := group24 (Byte.to_N a) 0 0 in
      String (enc g 0) (String (enc g 1) (String pad (String pad "")))
  | [a; b] =>
      let g := group24 (Byte.to_N a) (Byte.to_N b) 0 in
      String (enc g 0) (String (enc g 1) (String (enc g 2) (String pad "")))
  | a :: b :: c :: rest =>
      let g := group24 (Byte.to_N a) (Byte.to_N b) (Byte.to_N c) in
      String (enc g 0) (String (enc g 1) (String (enc g 2) (String (enc g 3)
        (encode rest))))
  end.

(** Four 6-bit values form a 24-bit group again. *)
Definition ungroup (s0 s1 s2 s3 : N) : N :=
  N.lor (N.shiftl s0 18) (N.lor (N.shiftl s1 12) (N.lor (N.shiftl s2 6) s3)).

(** The [i]-th byte of a group, [i = 0] being the high one. *)
Definition octet (g : N) (i : N) : option byte :=
  Byte.of_N (N.land (N.shiftr g (8 * (2 - i))) 255).

Definition opt_cons {A} (x : option A) (l : option (list A)) : option (list A) :=
  match x, l with
  | Some a, Some l' => Some (a :: l')
  | _, _ => None
  end.

(** [decode]: the decoder of RFC 4648. The input is read four characters
    at a time; padding is accepted in the last group only; anything else is
    rejected with [None]. *)
Fixpoint decode (s : string) : option (list byte) :=
  match s with
  | EmptyString => Some []
  | String c0 (String c1 (String c2 (String c3 rest))) =>
      match sextet_of_char c0, sextet_of_char c1 with
      | Some s0, Some s1 =>
          if Ascii.eqb c3 pad then
            match rest with
            | EmptyString =>
                if Ascii.eqb c2 pad then
                  let g := ungroup s0 s1 0 0 in
                  opt_cons (octet g 0) (Some [])
                else
                  match sextet_of_char c2 with
                  | Some s2 =>
                      let g := ungroup s0 s1 s2 0 in
                      opt_cons (octet g 0) (opt_cons (octet g 1) (Some []))
                  | None => None
                  end
            | String _ _ => None
            end
          else
            match sextet_of_char c2, sextet_of_char c3 with
            | Some s2, Some s3 =>
                let g := ungroup s0 s1 s2 s3 in
                opt_cons (octet g 0) (opt_cons (octet g 1) (opt_cons (octet g 2)
                  (decode rest)))
            | _, _ => None
            end
      | _, _ => None
      end
  | _ => None
  end.

(** A check used to validate the alphabet table: the character of [n]
    stands for [n], and is not the padding character. *)
Definition sextet_ok (n : N) : bool :=
  match sextet_of_char (char_of_sextet n) with
  | Some m => N.eqb m n
  | None => false
  end && negb (Ascii.eqb (char_of_sextet n) pad).

(** [p] holds of every character of [s]. *)
Fixpoint all_chars (p : ascii -> bool) (s : string) : bool :=
  match s with
  | EmptyString => true
  | String c r => p c && all_chars p r
  end.

(** A character of base64 text: one of the alphabet, or the padding. *)
Definition is_text_char (c : ascii) : bool :=
  match sextet_of_char c with
  | Some _ => true
  | None => Ascii.eqb c pad
  end.

End Base64.

(* ===================================================================== *)
(** * UTF-8, as read by [new TextDecoder().decode(bytes)]                 *)
(* ===================================================================== *)

Module Utf8.

(** U+FFFD REPLACEMENT CHARACTER, in UTF-8. *)
Definition replacement : string :=
  String (ascii_of_N 0xEF) (String (ascii_of_N 0xBF) (String (ascii_of_N 0xBD) "")).

(** U+FEFF BYTE ORDER MARK, in UTF-8. *)
Definition bom : string :=
  String (ascii_of_N 0xEF) (String (ascii_of_N 0xBB) (String (ascii_of_N 0xBF) "")).

(** The state of the decoder of the WHATWG Encoding standard: the bytes of
    the sequence being read, how many more it needs, and the range the next
    byte must lie in. *)
Record decoder := {
  seen : string;
  needed : nat;
  lower : N;
  upper : N
}.

Definition idle : decoder :=
  {| seen := ""; needed := 0; lower := 0x80; upper := 0xBF |}.

Definition between (lo b hi : N) : bool := (lo <=? b) && (b <=? hi).

(** A byte read while no sequence is open: what is emitted, and the next
    state. *)
Definition lead (b : N) : string * decoder :=
  let c := String (ascii_of_N b) "" in
  if b <=? 0x7F then (c, idle)
  else if between 0xC2 b 0xDF then
    ("", {| seen := c; needed := 1; lower := 0x80; upper := 0xBF |})
  else if between 0xE0 b 0xEF then
    ("", {| seen := c; needed := 2;
            lower := if b =? 0xE0 then 0xA0 else 0x80;
            upper := if b =? 0xED then 0x9F else 0xBF |})
  else if between 0xF0 b 0xF4 then
    ("", {| seen := c; needed := 3;
            lower := if b =? 0xF0 then 0x90 else 0x80;
            upper := if b =? 0xF4 then 0x8F else 0xBF |})
  else (replacement, idle).

(** The decoder loop. A byte outside the expected range ends the open
    sequence with one replacement character and is then read again as a
    first byte; an open sequence at the end of the input gives one
    replacement character. *)
Fixpoint decode_from (d : decoder) (bytes : list byte) : string :=
  match bytes with
  | [] => match needed d with O => "" | S _ => replacement end
  | x :: rest =>
      let b := Byte.to_N x in
      match needed d with
      | O => let (out, d') := lead b in out ++ decode_from d' rest
      | S k =>
          if between (lower d) b (upper d) then
            let sq := seen d ++ String (ascii_of_N b) "" in
            match k with
            | O => sq ++ decode_from idle rest
            | S _ =>
                decode_from
                  {| seen := sq; needed := k; lower := 0x80; upper := 0xBF |} rest
            end
          else
            let (out, d') := lead b in
            replacement ++ out ++ decode_from d' rest
      end
  end.

Definition strip_bom (s : string) : string :=
  if String.prefix bom s then String.substring 3 (String.length s - 3) s else s.

(** [new TextDecoder().decode(bytes)]: the label defaults to utf-8, errors
    are replaced ([fatal] is false) and a leading byte order mark is dropped
    ([ignoreBOM] is false). *)
Definition decode (bytes : list byte) : string :=
  strip_bom (decode_from idle bytes).

(** The bytes of a code point. Surrogates get the three bytes of the
    general scheme, so that a string holding an unpaired surrogate (JSON
    escapes can produce one) has a representation too. *)
Definition encode (cp : N) : string :=
  let cont (k : N) := ascii_of_N (N.lor 0x80 (N.land (N.shiftr cp k) 0x3F)) in
  if cp <? 0x80 then String (ascii_of_N cp) ""
  else if cp <? 0x800 then
    String (ascii_of_N (N.lor 0xC0 (N.shiftr cp 6))) (String (cont 0) "")
  else if cp <? 0x10000 then
    String (ascii_of_N (N.lor 0xE0 (N.shiftr cp 12)))
      (String (cont 6) (String (cont 0) ""))
  else
    String (ascii_of_N (N.lor 0xF0 (N.shiftr cp 18)))
      (String (cont 12) (String (cont 6) (String (cont 0) ""))).

Definition low6 (c : ascii) : N := N.land (N_of_ascii c) 0x3F.

Definition is_cont (c : ascii) : bool := between 0x80 (N_of_ascii c) 0xBF.

(** The code points of a string. A byte that does not start a complete
    sequence counts as one code point. *)
Fixpoint code_points (s : string) : list N :=
  match s with
  | EmptyString => []
  | String c0 r0 =>
      let b0 := N_of_ascii c0 in
      let single := b0 :: code_points r0 in
      if b0 <? 0xC0 then single
      else
        match r0 with
        | String c1 r1 =>
            if negb (is_cont c1) then single
            else if b0 <? 0xE0 then
              N.lor (N.shiftl (N.land b0 0x1F) 6) (low6 c1) :: code_points r1
            else
              match r1 with
              | String c2 r2 =>
                  if negb (is_cont c2) then single
                  else if b0 <? 0xF0 then
                    N.lor (N.shiftl (N.land b0 0x0F) 12)
                      (N.lor (N.shiftl (low6 c1) 6) (low6 c2)) :: code_points r2
                  else
                    match r2 with
                    | String c3 r3 =>
                        if negb (is_cont c3) then single
                        else
                          N.lor (N.shiftl (N.land b0 0x07) 18)
                            (N.lor (N.shiftl (low6 c1) 12)
                               (N.lor (N.shiftl (low6 c2) 6) (low6 c3)))
                          :: code_points r3
                    | EmptyString => single
                    end
              | EmptyString => single
              end
        | EmptyString => single
        end
  end.

(** The UTF-16 code units of a code point: JavaScript indexes strings and
    counts their length in these. *)
Definition units_of (cp : N) : list N :=
  if cp <? 0x10000 then [cp]
  else
    let v := cp - 0x10000 in
    [0xD800 + N.shiftr v 10; 0xDC00 + N.land v 0x3FF].

Definition code_units (s : string) : list N := flat_map units_of (code_points s).

(** No two bytes that start the three-byte form of a surrogate. The UTF-8
    form of a string without unpaired surrogates is such. *)
Fixpoint surrogate_free (s : string) : bool :=
  match s with
  | EmptyString => true
  | String c r =>
      negb ((N_of_ascii c =? 0xED) &&
            match r with
            | String c1 _ => between 0xA0 (N_of_ascii c1) 0xBF
            | EmptyString => false
            end)
      && surrogate_free r
  end.

End Utf8.

(* ===================================================================== *)
(** * JavaScript values, [JSON.stringify], [JSON.parse], property reads   *)
(* ===================================================================== *)

#[local] Set Warnings "-register-all".

(** The values the script handles: what [JSON.parse] can return, the object
    literal [payload], and [undefined]. An object is the list of its own
    properties in insertion order (no key of the script is an integer, the
    one kind JavaScript would move to the front). A number is kept as its
    decimal text ([500], [0.5]); its rounding to a double is not
    modelled. *)
Inductive jsval : Type :=
| VUndefined
| VNull
| VBool (b : bool)
| VNumber (text : string)
| VString (s : string)
| VArray (items : list jsval)
| VObject (props : list (string * jsval)).

Module JSON.

Definition dquote : ascii := ascii_of_N 0x22.
Definition backslash : ascii := ascii_of_N 0x5C.

Definition hex_char (n : N) : ascii :=
  if n <? 10 then ascii_of_N (48 + n) else ascii_of_N (87 + n).

(** Four lower-case hexadecimal digits, as in a [\uXXXX] escape. *)
Definition hex4 (n : N) : string :=
  String (hex_char (N.land (N.shiftr n 12) 15))
    (String (hex_char (N.land (N.shiftr n 8) 15))
      (String (hex_char (N.land (N.shiftr n 4) 15))
        (String (hex_char (N.land n 15)) ""))).

Definition unicode_escape (n : N) : string :=
  String backslash (String "u" (hex4 n)).

(** QuoteJSONString on one character below 0x80 or one byte of a longer
    sequence. *)
Definition escape_char (c : ascii) : string :=
  let n := N_of_ascii c in
  if n =? 0x08 then String backslash "b"
  else if n =? 0x09 then String backslash "t"
  else if n =? 0x0A then String backslash "n"
  else if n =? 0x0C then String backslash "f"
  else if n =? 0x0D then String backslash "r"
  else if n =? 0x22 then String backslash (String dquote "")
  else if n =? 0x5C then String backslash (String backslash "")
  else if n <? 0x20 then unicode_escape n
  else String c "".

(** QuoteJSONString without the enclosing quotes. The three bytes of an
    unpaired surrogate are written as one [\uXXXX] escape. *)
Fixpoint quote_chars (s : string) : string :=
  match s with
  | EmptyString => ""
  | String c r =>
      let plain := escape_char c ++ quote_chars r in
      if N_of_ascii c =? 0xED then
        match r with
        | String c1 (String c2 r2) =>
            if Utf8.between 0xA0 (N_of_ascii c1) 0xBF && Utf8.is_cont c2 then
              unicode_escape
                (N.lor 0xD000 (N.lor (N.shiftl (Utf8.low6 c1) 6) (Utf8.low6 c2)))
              ++ quote_chars r2
            else plain
        | _ => plain
        end
      else plain
  end.

Definition quote (s : string) : string :=
  String dquote (quote_chars s ++ String dquote "").

Fixpoint join (sep : string) (parts : list string) : string :=
  match parts with
  | [] => ""
  | [p] => p
  | p :: ps => p ++ sep ++ join sep ps
  end.

(** SerializeJSONProperty with no replacer and no indentation. [None] is
    the specification's [undefined]: such a property is left out of an
    object, and such an array element is written [null]. *)
Fixpoint serialize (v : jsval) : option string :=
  match v with
  | VUndefined => None
  | VNull => Some "null"
  | VBool true => Some "true"
  | VBool false => Some "false"
  | VNumber text => Some text
  | VString s => Some (quote s)
  | VArray items =>
      let element (x : jsval) :=
        match serialize x with Some t => t | None => "null" end in
      Some ("[" ++ join "," (map element items) ++ "]")
  | VObject props =>
      let member :=
        fix member (ps : list (string * jsval)) : list string :=
          match ps with
          | [] => []
          | (k, x) :: ps' =>
              match serialize x with
              | Some t => (quote k ++ ":" ++ t) :: member ps'
              | None => member ps'
              end
          end in
      Some ("{" ++ join "," (member props) ++ "}")
  end.

(** [JSON.stringify(value)]. *)
Definition stringify (v : jsval) : jsval :=
  match serialize v with
  | Some text => VString text
  | None => VUndefined
  end.

(** ** [JSON.parse] *)

Definition is_ws (c : ascii) : bool :=
  let n := N_of_ascii c in
  (n =? 0x20) || (n =? 0x09) || (n =? 0x0A) || (n =? 0x0D).

Fixpoint skip_ws (s : string) : string :=
  match s with
  | EmptyString => ""
  | String c r => if is_ws c then skip_ws r else s
  end.

Definition is_digit (c : ascii) : bool := Utf8.between 48 (N_of_ascii c) 57.

Definition hex_value (c : ascii) : option N :=
  let n := N_of_ascii c in
  if Utf8.between 48 n 57 then Some (n - 48)
  else if Utf8.between 65 n 70 then Some (n - 55)
  else if Utf8.between 97 n 102 then Some (n - 87)
  else None.

Definition hex4_value (h1 h2 h3 h4 : ascii) : option N :=
  match hex_value h1, hex_value h2, hex_value h3, hex_value h4 with
  | Some a, Some b, Some c, Some d => Some (((a * 16 + b) * 16 + c) * 16 + d)
  | _, _, _, _ => None
  end.

Definition is_high_surrogate (u : N) : bool := Utf8.between 0xD800 u 0xDBFF.
Definition is_low_surrogate (u : N) : bool := Utf8.between 0xDC00 u 0xDFFF.

(** The low surrogate escape a string starts with, if it does. *)
Definition low_escape (s : string) : option (N * string) :=
  match s with
  | String b (String u (String h1 (String h2 (String h3 (String h4 r))))) =>
      if Ascii.eqb b backslash && Ascii.eqb u "u" then
        match hex4_value h1 h2 h3 h4 with
        | Some v => if is_low_surrogate v then Some (v, r) else None
        | None => None
        end
      else None
  | _ => None
  end.

Definition prepend (p : string) (r : option (string * string))
  : option (string * string) :=
  match r with
  | Some (s, rest) => Some (p ++ s, rest)
  | None => None
  end.

Definition simple_escape (e : ascii) : option ascii :=
  let n := N_of_ascii e in
  if n =? 0x22 then Some dquote
  else if n =? 0x5C then Some backslash
  else if n =? 0x2F then Some "/"%char
  else if n =? 0x62 then Some (ascii_of_N 0x08)
  else if n =? 0x66 then Some (ascii_of_N 0x0C)
  else if n =? 0x6E then Some (ascii_of_N 0x0A)
  else if n =? 0x72 then Some (ascii_of_N 0x0D)
  else if n =? 0x74 then Some (ascii_of_N 0x09)
  else None.

(** The characters of a string literal after its opening quote: the
    string they denote and the input after the closing quote. A high
    surrogate escape directly followed by a low surrogate escape denotes
    one code point. *)
Fixpoint parse_chars (s : string) : option (string * string) :=
  match s with
  | EmptyString => None
  | String c r =>
      if Ascii.eqb c dquote then Some ("", r)
      else if Ascii.eqb c backslash then
        match r with
        | EmptyString => None
        | String e r1 =>
            if Ascii.eqb e "u" then
              match r1 with
              | String h1 (String h2 (String h3 (String h4 r2))) =>
                  match hex4_value h1 h2 h3 h4 with
                  | Some u =>
                      if is_high_surrogate u then
                        match r2 with
                        | String _ (String _ (String _ (String _ (String _
                            (String _ r3))))) =>
                            match low_escape r2 with
                            | Some (v, _) =>
                                prepend
                                  (Utf8.encode
                                     (0x10000 + (u - 0xD800) * 0x400 + (v - 0xDC00)))
                                  (parse_chars r3)
                            | None => prepend (Utf8.encode u) (parse_chars r2)
                            end
                        | _ => prepend (Utf8.encode u) (parse_chars r2)
                        end
                      else prepend (Utf8.encode u) (parse_chars r2)
                  | None => None
                  end
              | _ => None
              end
            else
              match simple_escape e with
              | Some x => prepend (String x "") (parse_chars r1)
              | None => None
              end
        end
      else if N_of_ascii c <? 0x20 then None
      else prepend (String c "") (parse_chars r)
  end.

Fixpoint span_digits (s : string) : string * string :=
  match s with
  | EmptyString => ("", "")
  | String c r =>
      if is_digit c then let (ds, rest) := span_digits r in (String c ds, rest)
      else ("", s)
  end.

(** One or more digits. *)
Definition digits1 (s : string) : option (string * string) :=
  match span_digits s with
  | (EmptyString, _) => None
  | (ds, rest) => Some (ds, rest)
  end.

(** A JSON number: its text and the input after it. *)
Definition parse_number (s : string) : option (string * string) :=
  let (sign, s1) :=
    match s with
    | String c r => if Ascii.eqb c "-" then ("-", r) else ("", s)
    | EmptyString => ("", s)
    end in
  let int_part :=
    match s1 with
    | String c r =>
        if Ascii.eqb c "0" then Some ("0", r)
        else if is_digit c then digits1 s1
        else None
    | EmptyString => None
    end in
  match int_part with
  | None => None
  | Some (int, s2) =>
      let frac_part :=
        match s2 with
        | String c r =>
            if Ascii.eqb c "." then prepend "." (digits1 r) else Some ("", s2)
        | EmptyString => Some ("", s2)
        end in
      match frac_part with
      | None => None
      | Some (frac, s3) =>
          let exp_part :=
            match s3 with
            | String c r =>
                if Ascii.eqb c "e" || Ascii.eqb c "E" then
                  match r with
                  | String g r' =>
                      if Ascii.eqb g "+" || Ascii.eqb g "-" then
                        prepend (String c (String g "")) (digits1 r')
                      else prepend (String c "") (digits1 r)
                  | EmptyString => None
                  end
                else Some ("", s3)
            | EmptyString => Some ("", s3)
            end in
          match exp_part with
          | None => None
          | Some (exp, s4) => Some (sign ++ int ++ frac ++ exp, s4)
          end
      end
  end.

(** [s] without its prefix [p], if it starts with [p]. *)
Fixpoint strip_prefix (p s : string) : option string :=
  match p, s with
  | EmptyString, _ => Some s
  | String a p', String b s' => if Ascii.eqb a b then strip_prefix p' s' else None
  | String _ _, EmptyString => None
  end.

Definition keyword (word : string) (v : jsval) (s : string)
  : option (jsval * string) :=
  match strip_prefix word s with
  | Some rest => Some (v, rest)
  | None => None
  end.

(** CreateDataProperty on an object under construction: a key met again
    keeps its place and takes the new value. *)
Fixpoint set_prop (k : string) (v : jsval) (props : list (string * jsval))
  : list (string * jsval) :=
  match props with
  | [] => [(k, v)]
  | (k', v') :: rest =>
      if String.eqb k k' then (k', v) :: rest else (k', v') :: set_prop k v rest
  end.

(** Recursive descent over the JSON grammar, one function per
    nonterminal. The three functions call one another; each is written
    over the functions it calls, and [parse_value] below ties the knot. *)
Section Grammar.

Variable value : string -> option (jsval * string).
Variable elements : string -> list jsval -> option (jsval * string).
Variable members :
  string -> list (string * jsval) -> option (jsval * string).

(** A value, after optional white space. *)
Definition value_at (s : string) : option (jsval * string) :=
  match skip_ws s with
  | EmptyString => None
  | String c r =>
      if Ascii.eqb c "{" then
        match skip_ws r with
        | String c' r' =>
            if Ascii.eqb c' "}" then Some (VObject [], r') else members r []
        | EmptyString => None
        end
      else if Ascii.eqb c "[" then
        match skip_ws r with
        | String c' r' =>
            if Ascii.eqb c' "]" then Some (VArray [], r') else elements r []
        | EmptyString => None
        end
      else if Ascii.eqb c dquote then
        match parse_chars r with
        | Some (str, r') => Some (VString str, r')
        | None => None
        end
      else if Ascii.eqb c "t" then keyword "rue" (VBool true) r
      else if Ascii.eqb c "f" then keyword "alse" (VBool false) r
      else if Ascii.eqb c "n" then keyword "ull" VNull r
      else
        match parse_number (String c r) with
        | Some (text, r') => Some (VNumber text, r')
        | None => None
        end
  end.

(** The elements of an array from the next one on, up to the closing
    bracket; [acc] holds the elements read so far. *)
Definition elements_at (s : string) (acc : list jsval)
  : option (jsval * string) :=
  match value s with
  | Some (v, r) =>
      match skip_ws r with
      | String c r' =>
          if Ascii.eqb c "," then elements r' (acc ++ [v])
          else if Ascii.eqb c "]" then Some (VArray (acc ++ [v]), r')
          else None
      | EmptyString => None
      end
  | None => None
  end.

(** The members of an object from the next one on, up to the closing
    brace; [acc] holds the members read so far. *)
Definition members_at (s : string) (acc : list (string * jsval))
  : option (jsval * string) :=
  match skip_ws s with
  | String q r =>
      if Ascii.eqb q dquote then
        match parse_chars r with
        | Some (k, r1) =>
            match skip_ws r1 with
            | String c r2 =>
                if Ascii.eqb c ":" then
                  match value r2 with
                  | Some (v, r3) =>
                      match skip_ws r3 with
                      | String d r4 =>
                          if Ascii.eqb d "," then members r4 (set_prop k v acc)
                          else if Ascii.eqb d "}" then
                            Some (VObject (set_prop k v acc), r4)
                          else None
                      | EmptyString => None
                      end
                  | None => None
                  end
                else None
            | EmptyString => None
            end
        | None => None
        end
      else None
  | EmptyString => None
  end.

End Grammar.

(** Each call uses one unit of [fuel]; [parse] below gives more than any
    input can use ([parse_complete]). *)
Fixpoint parse_value (fuel : nat) (s : string) : option (jsval * string) :=
  match fuel with
  | O => None
  | S fuel' => value_at (parse_elements fuel') (parse_members fuel') s
  end

with parse_elements (fuel : nat) (s : string) (acc : list jsval)
  : option (jsval * string) :=
  match fuel with
  | O => None
  | S fuel' => elements_at (parse_value fuel') (parse_elements fuel') s acc
  end

with parse_members (fuel : nat) (s : string) (acc : list (string * jsval))
  : option (jsval * string) :=
  match fuel with
  | O => None
  | S fuel' => members_at (parse_value fuel') (parse_members fuel') s acc
  end.

(** [JSON.parse(text)] with no reviver. [None] stands for the SyntaxError
    it throws. *)
Definition parse (text : string) : option jsval :=
  match parse_value (S (2 * String.length text)) text with
  | Some (v, rest) =>
      match skip_ws rest with
      | EmptyString => Some v
      | String _ _ => None
      end
  | None => None
  end.

(** ** Property reads *)

Definition decimal (n : N) : string := NilZero.string_of_uint (N.to_uint n).

Fixpoint digits_value (acc : N) (s : string) : option N :=
  match s with
  | EmptyString => Some acc
  | String c r =>
      if is_digit c then digits_value (acc * 10 + (N_of_ascii c - 48)) r
      else None
  end.

(** The array index a property key denotes: the key must be the canonical
    decimal text of a number below [2^32 - 1]. *)
Definition array_index (key : string) : option N :=
  match key with
  | EmptyString => None
  | String c r =>
      if Ascii.eqb c "0" && negb (String.eqb r "") then None
      else
        match digits_value 0 key with
        | Some n => if n <? 4294967295 then Some n else None
        | None => None
        end
  end.

Fixpoint lookup (key : string) (props : list (string * jsval)) : option jsval :=
  match props with
  | [] => None
  | (k, v) :: rest => if String.eqb key k then Some v else lookup key rest
  end.

Definition or_undefined (x : option jsval) : jsval :=
  match x with
  | Some v => v
  | None => VUndefined
  end.

(** [value[key]], for the own properties of a value: the members of an
    object, the elements and [length] of an array, the code units and
    [length] of a string. [None] stands for the TypeError thrown when
    [value] is [undefined] or [null]. What built-in prototypes add
    ([constructor], [toString], ...) is not modelled; the script reads
    [content], [0] and [text] only. *)
Definition get (value : jsval) (key : string) : option jsval :=
  match value with
  | VUndefined | VNull => None
  | VBool _ | VNumber _ => Some VUndefined
  | VString s =>
      let units := Utf8.code_units s in
      if String.eqb key "length" then
        Some (VNumber (decimal (N.of_nat (List.length units))))
      else
        match array_index key with
        | Some i =>
            Some (or_undefined
                    (option_map (fun u => VString (Utf8.encode u))
                       (nth_error units (N.to_nat i))))
        | None => Some VUndefined
        end
  | VArray items =>
      if String.eqb key "length" then
        Some (VNumber (decimal (N.of_nat (List.length items))))
      else
        match array_index key with
        | Some i => Some (or_undefined (nth_error items (N.to_nat i)))
        | None => Some VUndefined
        end
  | VObject props => Some (or_undefined (lookup key props))
  end.

(** [value[k1][k2]...], [None] when one of the reads throws. *)
Fixpoint get_path (value : jsval) (keys : list string) : option jsval :=
  match keys with
  | [] => Some value
  | key :: keys' =>
      match get value key with
      | Some v => get_path v keys'
      | None => None
      end
  end.

End JSON.

(* ===================================================================== *)
(** * The script                                                          *)
(* ===================================================================== *)

(** The input of [new InvokeModelCommand({...})]. *)
Module InvokeModelCommand.
Record input : Type := {
  body : jsval;
  contentType : string;
  accept : string;
  modelId : string
}.
End InvokeModelCommand.

(** What a [throw] can carry in a run of the script. *)
Inductive thrown : Type :=
| AccessDeniedException (message : string)
    (* an instance of the SDK's AccessDeniedException class *)
| ServiceError (name message : string)
    (* any other error of the client: another service exception, a
       network or credentials failure *)
| SystemError (code : string)
    (* an error of fs.readFile: ENOENT, EACCES, EISDIR, ... *)
| SyntaxError
    (* thrown by JSON.parse *)
| TypeError.
    (* thrown by a property read on undefined or null *)

(** One argument of a [console.error] or [console.log] call. *)
Inductive console_arg : Type :=
| LogString (s : string)
| LogValue (v : jsval)
| LogThrown (e : thrown).

(** What the endpoint does with a command: it raises, or it answers with
    the bytes of [response.body]. *)
Definition answer : Type := (thrown + list byte)%type.

(** What a run leaves behind, oldest first: the [console.log] calls
    (standard output), the [console.error] calls (standard error), and the
    exchanges with the remote endpoint, each the command given to
    [client.send] with what came back. *)
Record Trace : Type := {
  stdout : list (list console_arg);
  stderr : list (list console_arg);
  exchanges : list (InvokeModelCommand.input * answer)
}.

Definition empty_trace : Trace :=
  {| stdout := []; stderr := []; exchanges := [] |}.

(** What the script's surroundings answer: the file system to
    [fs.readFile], the remote endpoint to [client.send]. *)
Record World : Type := {
  fs_readFile : string -> thrown + list byte;
  endpoint : InvokeModelCommand.input -> answer
}.

(** How a call ends. *)
Inductive outcome (A : Type) : Type :=
| Returned (a : A)
| Threw (e : thrown).
Arguments Returned {A} a.
Arguments Threw {A} e.

Module Script.

(** A computation: it extends the trace and returns or throws. What was
    written before a [throw] stays written. An [await] is a sequencing
    point. *)
Definition M (A : Type) : Type := Trace -> outcome A * Trace.

Definition ret {A} (a : A) : M A := fun t => (Returned a, t).

Definition throw {A} (e : thrown) : M A := fun t => (Threw e, t).

Definition bind {A B} (m : M A) (k : A -> M B) : M B :=
  fun t =>
    match m t with
    | (Returned a, t') => k a t'
    | (Threw e, t') => (Threw e, t')
    end.

(** [try { m } catch (e) { handler e }]. *)
Definition try_catch {A} (m : M A) (handler : thrown -> M A) : M A :=
  fun t =>
    match m t with
    | (Returned a, t') => (Returned a, t')
    | (Threw e, t') => handler e t'
    end.

Notation "x <- m ;; k" := (bind m (fun x => k))
  (at level 61, m at next level, right associativity).
Notation "m ;;; k" := (bind m (fun _ => k))
  (at level 61, right associativity).

Definition lift {A} (r : thrown + A) : M A :=
  match r with
  | inl e => throw e
  | inr a => ret a
  end.

(** The trace [t] after one more [console.log] call. *)
Definition with_stdout (t : Trace) (args : list console_arg) : Trace :=
  {| stdout := stdout t ++ [args]; stderr := stderr t;
     exchanges := exchanges t |}.

(** The trace [t] after one more [console.error] call. *)
Definition with_stderr (t : Trace) (args : list console_arg) : Trace :=
  {| stdout := stdout t; stderr := stderr t ++ [args];
     exchanges := exchanges t |}.

(** The trace [t] after one more exchange with the endpoint. *)
Definition with_exchange (t : Trace) (command : InvokeModelCommand.input)
  (reply : answer) : Trace :=
  {| stdout := stdout t; stderr := stderr t;
     exchanges := exchanges t ++ [(command, reply)] |}.

Definition console_log (args : list console_arg) : M unit :=
  fun t => (Returned tt, with_stdout t args).

Definition console_error (args : list console_arg) : M unit :=
  fun t => (Returned tt, with_stderr t args).

(** [err instanceof AccessDeniedException]. *)
Definition instanceof_AccessDeniedException (err : thrown) : bool :=
  match err with
  | AccessDeniedException _ => true
  | _ => false
  end.

Definition JSON_parse (text : string) : M jsval :=
  match JSON.parse text with
  | Some v => ret v
  | None => throw SyntaxError
  end.

(** [value[key]] as an expression that can throw. *)
Definition member (value : jsval) (key : string) : M jsval :=
  match JSON.get value key with
  | Some v => ret v
  | None => throw TypeError
  end.

Definition line_feed : ascii := ascii_of_N 0x0A.

Section WithWorld.

Variable world : World.

Definition readFile (filePath : string) : M (list byte) :=
  lift (fs_readFile world filePath).

(** [client.send(command)]: the command goes out and the endpoint's
    answer comes back; the exchange is on record either way. *)
Definition client_send (command : InvokeModelCommand.input) : M (list byte) :=
  fun t =>
    let reply := endpoint world command in
    lift reply (with_exchange t command reply).

(** [loadImageAsBase64], lines 15-26. *)
Definition loadImageAsBase64 (filePath : string) : M string :=
  try_catch
    (data <- readFile filePath ;;
     let base64String := Base64.encode data in
     ret base64String)
    (fun error =>
       console_error [LogString "Error loading the image:"; LogThrown error] ;;;
       throw error).

Definition modelId : string := "anthropic.claude-3-haiku-20240307-v1:0".

(** The object literal [payload], lines 53-77. *)
Definition payload (prompt imageBase64 : string) : jsval :=
  VObject [
    ("messages", VArray [
      VObject [
        ("role", VString "user");
        ("content", VArray [
          VObject [
            ("type", VString "image");
            ("source", VObject [
              ("type", VString "base64");
              ("media_type", VString "image/png");
              ("data", VString imageBase64)
            ])
          ];
          VObject [
            ("type", VString "text");
            ("text", VString prompt)
          ]
        ])
      ]
    ]);
    ("max_tokens", VNumber "500");
    ("temperature", VNumber "0.5");
    ("anthropic_version", VString "bedrock-2023-05-31");
    ("stop_sequences", VArray [
      VString (String line_feed (String line_feed "Human:"))
    ])
  ].

(** The command, lines 79-84. *)
Definition command (prompt imageBase64 : string) : InvokeModelCommand.input :=
  {| InvokeModelCommand.body := JSON.stringify (payload prompt imageBase64);
     InvokeModelCommand.contentType := "application/json";
     InvokeModelCommand.accept := "application/json";
     InvokeModelCommand.modelId := modelId |}.

(** The template literal of lines 96-98. *)
Definition access_denied_warning : string :=
  "Access denied. Ensure you have the correct permissions to invoke "
  ++ modelId ++ ".".

(** [responseBody.content[0].text], line 93. *)
Definition completion_text (responseBody : jsval) : M jsval :=
  content <- member responseBody "content" ;;
  first <- member content "0" ;;
  member first "text".

(** [invokeClaude], lines 41-103. A call that leaves the [catch] block
    without [throw] reaches the end of the function and returns
    [undefined]. *)
Definition invokeClaude (prompt imagePath : string) : M jsval :=
  imageBase64 <- loadImageAsBase64 imagePath ;;
  try_catch
    (response_body <- client_send (command prompt imageBase64) ;;
     let decodedResponseBody := Utf8.decode response_body in
     responseBody <- JSON_parse decodedResponseBody ;;
     completion_text responseBody)
    (fun err =>
       if instanceof_AccessDeniedException err then
         console_error [LogString access_denied_warning] ;;;
         ret VUndefined
       else throw err).

(** The statements run when the file is the program's entry point, lines
    106-116. *)
Definition main : M unit :=
  let prompt := "Provide me more details about this image" in
  let imagePath := "S3Permissions.png" in
  console_log [LogString (String line_feed "Model: Anthropic Claude v3")] ;;;
  console_log [LogString ("Prompt: " ++ prompt)] ;;;
  completion <- invokeClaude prompt imagePath ;;
  console_log [LogString "Completion:"] ;;;
  console_log [LogValue completion] ;;;
  console_log [LogString (String line_feed "")].

(** The module body, lines 105-116: [main] runs when the file is the
    program's entry point, that is when [process.argv[1]] (which a host
    may leave out) is the path of this module,
    [fileURLToPath(import.meta.url)]. *)
Definition module_body (argv1 : option string) (modulePath : string) : M unit :=
  match argv1 with
  | Some path => if String.eqb path modulePath then main else ret tt
  | None => ret tt
  end.

End WithWorld.

(** The two lines [main] prints before it calls [invokeClaude]. *)
Definition main_header : list (list console_arg) :=
  [[LogString (String line_feed "Model: Anthropic Claude v3")];
   [LogString "Prompt: Provide me more details about this image"]].

(** The three lines [main] prints after [invokeClaude] returned
    [completion]. *)
Definition main_report (completion : jsval) : list (list console_arg) :=
  [[LogString "Completion:"];
   [LogValue completion];
   [LogString (String line_feed "")]].

(** What the [try]/[catch] statement of [invokeClaude] makes of the
    endpoint's answer; [invokeClaude_readable] below proves that the
    function behaves so. *)
Definition settle (reply : answer) (t : Trace) : outcome jsval * Trace :=
  match reply with
  | inl err =>
      if instanceof_AccessDeniedException err
      then (Returned VUndefined, with_stderr t [LogString access_denied_warning])
      else (Threw err, t)
  | inr response_body =>
      match JSON.parse (Utf8.decode response_body) with
      | Some responseBody => completion_text responseBody t
      | None => (Threw SyntaxError, t)
      end
  end.

(** In the run of [m] from [t], the endpoint was asked once, with
    [command], and its answer was [reply]. *)
Definition endpoint_answered {A} (m : M A) (t : Trace)
  (command : InvokeModelCommand.input) (reply : answer) : Prop :=
  exchanges (snd (m t)) = (exchanges t ++ [(command, reply)])%list.

End Script.

(* ===================================================================== *)
(** * Sample surroundings                                                 *)
(* ===================================================================== *)

Module Samples.

Definition quoted (s : string) : string :=
  String JSON.dquote (s ++ String JSON.dquote "").

(** The first bytes of a PNG file. *)
Definition png_bytes : list byte := [x89; x50; x4e; x47; x0d; x0a; x1a; x0a].

(** A file system holding one file, [S3Permissions.png]. *)
Definition one_file (filePath : string) : thrown + list byte :=
  if String.eqb filePath "S3Permissions.png" then inr png_bytes
  else inl (SystemError "ENOENT").

(** The surroundings in which the endpoint answers every command with
    [reply]. *)
Definition world_answering (reply : answer) : World :=
  {| fs_readFile := one_file; endpoint := fun _ => reply |}.

(** The response body of the specification's example: an object whose
    [content] holds one element, whose [text] is [hello]. *)
Definition hello_text : string :=
  "{" ++ quoted "content" ++ ":[{" ++ quoted "text" ++ ":" ++ quoted "hello"
  ++ "}]}".

Definition hello_response : list byte := list_byte_of_string hello_text.

(** A response body whose [content] is empty. *)
Definition empty_content_response : list byte :=
  list_byte_of_string ("{" ++ quoted "content" ++ ":[]}").

(** A response body whose first content element has no [text]. *)
Definition no_text_response : list byte :=
  list_byte_of_string
    ("{" ++ quoted "content" ++ ":[{" ++ quoted "type" ++ ":"
     ++ quoted "tool_use" ++ "}]}").

(** A response body cut short. *)
Definition truncated_response : list byte :=
  list_byte_of_string ("{" ++ quoted "content" ++ ":[{").

(** The prompt and the image path of the file's own demonstration, and
    the command they go into when the image is [png_bytes]. *)
Definition prompt : string := "Provide me more details about this image".
Definition image : string := "S3Permissions.png".
Definition sample_command : InvokeModelCommand.input :=
  Script.command prompt (Base64.encode png_bytes).

Definition access_denied : thrown :=
  AccessDeniedException "You don't have access to the model with the specified model ID.".

Definition throttled : thrown :=
  ServiceError "ThrottlingException" "Too many requests, please wait before trying again.".

(** A response body with a second content element and further members. *)
Definition two_parts_response : list byte :=
  list_byte_of_string
    ("{" ++ quoted "id" ++ ":" ++ quoted "msg_01" ++ "," ++ quoted "content"
     ++ ":[{" ++ quoted "type" ++ ":" ++ quoted "text" ++ "," ++ quoted "text"
     ++ ":" ++ quoted "A bucket policy." ++ "},{" ++ quoted "text" ++ ":"
     ++ quoted "ignored" ++ "}]}").

(** A response body that is an object without [content]. *)
Definition no_content_response : list byte :=
  list_byte_of_string
    ("{" ++ quoted "message" ++ ":" ++ quoted "Internal error" ++ "}").

(** The response body [null]. *)
Definition null_response : list byte := list_byte_of_string "null".

(** A file system without any file. *)
Definition no_file (filePath : string) : thrown + list byte :=
  inl (SystemError "ENOENT").

Definition world_without_files : World :=
  {| fs_readFile := no_file; endpoint := fun _ => inr hello_response |}.

End Samples.

(* ===================================================================== *)
(** * Facts about the platform layer                                      *)
(* ===================================================================== *)

(** Goals about quotients and remainders by constants. *)
Ltac divmod := zify; Z.to_euclidean_division_equations; lia.

Section Base64Facts.
Import Base64.

Example encode_Man : encode [x4d; x61; x6e] = "TWFu".
Proof. reflexivity. Qed.

Example encode_Ma : encode [x4d; x61] = "TWE=".
Proof. reflexivity. Qed.

Example encode_M : encode [x4d] = "TQ==".
Proof. reflexivity. Qed.

Example decode_TWE : decode "TWE=" = Some [x4d; x61].
Proof. reflexivity. Qed.

Example decode_rejects_short : decode "TWE" = None.
Proof. reflexivity. Qed.

(** [x << k | r] is [x * 2^k + r] when [r] fits in [k] bits. *)
Lemma lor_shiftl_add (x k r : N) : r < 2 ^ k -> N.lor (N.shiftl x k) r = x * 2 ^ k + r.
Proof.
  intros Hr.
  rewrite N.shiftl_mul_pow2.
  rewrite <- N.lxor_lor, <- N.add_nocarry_lxor; try reflexivity.
  all: apply N.bits_inj; intro i; rewrite N.land_spec, N.bits_0;
    destruct (N.lt_ge_cases i k) as [Hi|Hi].
  all: try (rewrite N.mul_pow2_bits_low by assumption; reflexivity).
  all: destruct (N.eq_dec r 0) as [->|Hnz]; [rewrite N.bits_0; apply andb_false_r|].
  all: rewrite (N.bits_above_log2 r i), andb_false_r; try reflexivity.
  all: apply N.lt_le_trans with k; [apply N.log2_lt_pow2; lia | assumption].
Qed.

Lemma land_mask (a k : N) : N.land a (N.ones k) = a mod 2 ^ k.
Proof. apply N.land_ones. Qed.

Lemma group24_sum (x y z : N) :
  y < 256 -> z < 256 -> group24 x y z = x * 65536 + y * 256 + z.
Proof.
  intros Hy Hz. unfold group24.
  rewrite (lor_shiftl_add y 8 z) by (simpl; lia).
  rewrite lor_shiftl_add by (simpl; lia).
  simpl; lia.
Qed.

Lemma sextet_div (g i : N) : sextet g i = (g / 2 ^ (6 * (3 - i))) mod 64.
Proof.
  unfold sextet. rewrite N.shiftr_div_pow2.
  change 63 with (N.ones 6). now rewrite land_mask.
Qed.

Lemma ungroup_sum (s0 s1 s2 s3 : N) :
  s1 < 64 -> s2 < 64 -> s3 < 64 ->
  ungroup s0 s1 s2 s3 = s0 * 262144 + s1 * 4096 + s2 * 64 + s3.
Proof.
  intros H1 H2 H3. unfold ungroup.
  rewrite (lor_shiftl_add s2 6 s3) by (simpl; lia).
  rewrite (lor_shiftl_add s1 12) by (simpl; lia).
  rewrite lor_shiftl_add by (simpl; lia).
  simpl; lia.
Qed.

Lemma ungroup_sextets (g : N) :
  ungroup (sextet g 0) (sextet g 1) (sextet g 2) (sextet g 3) = g mod 16777216.
Proof.
  rewrite !sextet_div. simpl (2 ^ _).
  rewrite ungroup_sum by (apply N.mod_upper_bound; lia).
  divmod.
Qed.


Lemma octet_div (g i : N) : octet g i = Byte.of_N ((g / 2 ^ (8 * (2 - i))) mod 256).
Proof.
  unfold octet. rewrite N.shiftr_div_pow2.
  change 255 with (N.ones 8). now rewrite land_mask.
Qed.

Lemma byte_lt_256 (a : byte) : Byte.to_N a < 256.
Proof. pose proof (Byte.to_N_bounded a). lia. Qed.

Lemma octets_of_group (a b c : byte) (g : N) :
  g = Byte.to_N a * 65536 + Byte.to_N b * 256 + Byte.to_N c ->
  octet g 0 = Some a /\ octet g 1 = Some b /\ octet g 2 = Some c.
Proof.
  intros ->.
  pose proof (byte_lt_256 a). pose proof (byte_lt_256 b).
  pose proof (byte_lt_256 c).
  rewrite !octet_div. simpl (2 ^ _).
  repeat split.
  - rewrite <- (Byte.of_to_N a). f_equal. divmod.
  - rewrite <- (Byte.of_to_N b). f_equal. divmod.
  - rewrite <- (Byte.of_to_N c). f_equal. divmod.
Qed.

Lemma below_forallb (k : nat) (p : N -> bool) :
  forallb p (map N.of_nat (seq 0 k)) = true ->
  forall n, n < N.of_nat k -> p n = true.
Proof.
  intros Hall n Hn.
  rewrite forallb_forall in Hall. apply Hall.
  apply in_map_iff. exists (N.to_nat n). split.
  - apply N2Nat.id.
  - apply in_seq. lia.
Qed.

Lemma alphabet_inverse (n : N) :
  n < 64 ->
  sextet_of_char (char_of_sextet n) = Some n /\
  Ascii.eqb (char_of_sextet n) pad = false.
Proof.
  intros Hn.
  assert (Hok : sextet_ok n = true).
  { apply (below_forallb 64); [vm_compute; reflexivity | exact Hn]. }
  unfold sextet_ok in Hok. apply andb_prop in Hok as [H1 H2].
  split.
  - destruct (sextet_of_char (char_of_sextet n)) as [m|]; [|discriminate].
    apply N.eqb_eq in H1. now subst.
  - now apply negb_true_iff.
Qed.

Lemma sextet_lt (g i : N) : sextet g i < 64.
Proof. rewrite sextet_div. apply N.mod_upper_bound. lia. Qed.

Lemma enc_inverse (g i : N) :
  sextet_of_char (enc g i) = Some (sextet g i) /\ Ascii.eqb (enc g i) pad = false.
Proof. apply alphabet_inverse, sextet_lt. Qed.

Lemma list_ind3 {A} (P : list A -> Prop) :
  P [] -> (forall a, P [a]) -> (forall a b, P [a; b]) ->
  (forall a b c l, P l -> P (a :: b :: c :: l)) ->
  forall l, P l.
Proof.
  intros H0 H1 H2 H3.
  fix IH 1. intros [|a [|b [|c l]]].
  - exact H0.
  - apply H1.
  - apply H2.
  - apply H3, IH.
Qed.

(** Decoding what [encode] wrote gives the bytes back. *)
Theorem decode_encode (data : list byte) : decode (encode data) = Some data.
Proof.
  induction data as [|a|a b|a b c rest IH] using list_ind3.
  - reflexivity.
  - cbn [encode decode].
    set (g := group24 (Byte.to_N a) 0 0).
    destruct (enc_inverse g 0) as [-> _], (enc_inverse g 1) as [-> _].
    change (Ascii.eqb pad pad) with true. cbv iota.
    assert (Hg : g = Byte.to_N a * 65536 + Byte.to_N x00 * 256 + Byte.to_N x00).
    { unfold g. rewrite group24_sum by lia. reflexivity. }
    assert (Hu : ungroup (sextet g 0) (sextet g 1) 0 0 = g).
    { pose proof (byte_lt_256 a).
      rewrite ungroup_sum by (try apply sextet_lt; lia).
      rewrite !sextet_div, Hg. simpl (2 ^ _). simpl (Byte.to_N x00).
      divmod. }
    rewrite Hu. destruct (octets_of_group _ _ _ _ Hg) as (-> & _ & _).
    reflexivity.
  - cbn [encode decode].
    set (g := group24 (Byte.to_N a) (Byte.to_N b) 0).
    destruct (enc_inverse g 0) as [-> _], (enc_inverse g 1) as [-> _].
    destruct (enc_inverse g 2) as [-> ->].
    change (Ascii.eqb pad pad) with true. cbv iota.
    assert (Hg : g = Byte.to_N a * 65536 + Byte.to_N b * 256 + Byte.to_N x00).
    { unfold g. rewrite group24_sum by (try apply byte_lt_256; lia). reflexivity. }
    assert (Hu : ungroup (sextet g 0) (sextet g 1) (sextet g 2) 0 = g).
    { pose proof (byte_lt_256 a). pose proof (byte_lt_256 b).
      rewrite ungroup_sum by (try apply sextet_lt; lia).
      rewrite !sextet_div, Hg. simpl (2 ^ _). simpl (Byte.to_N x00).
      divmod. }
    rewrite Hu. destruct (octets_of_group _ _ _ _ Hg) as (-> & -> & _).
    reflexivity.
  - cbn [encode decode].
    set (g := group24 (Byte.to_N a) (Byte.to_N b) (Byte.to_N c)).
    destruct (enc_inverse g 0) as [-> _], (enc_inverse g 1) as [-> _].
    destruct (enc_inverse g 2) as [-> _], (enc_inverse g 3) as [-> ->].
    assert (Hg : g = Byte.to_N a * 65536 + Byte.to_N b * 256 + Byte.to_N c).
    { unfold g. apply group24_sum; apply byte_lt_256. }
    rewrite ungroup_sextets, N.mod_small.
    + destruct (octets_of_group _ _ _ _ Hg) as (-> & -> & ->).
      rewrite IH. reflexivity.
    + pose proof (byte_lt_256 a). pose proof (byte_lt_256 b).
      pose proof (byte_lt_256 c). lia.
Qed.

Lemma alphabet_not_ED (n : N) :
  n < 64 -> N.eqb (N_of_ascii (char_of_sextet n)) 0xED = false.
Proof.
  intros Hn.
  apply negb_true_iff.
  apply (below_forallb 64
           (fun n => negb (N.eqb (N_of_ascii (char_of_sextet n)) 0xED)));
    [vm_compute; reflexivity | exact Hn].
Qed.

(** Base64 text has no byte that could start a surrogate. *)
Lemma encode_surrogate_free (data : list byte) :
  Utf8.surrogate_free (encode data) = true.
Proof.
  induction data as [|a|a b|a b c rest IH] using list_ind3;
    cbn [encode Utf8.surrogate_free]; unfold enc;
    rewrite ?alphabet_not_ED by apply sextet_lt;
    try rewrite IH; reflexivity.
Qed.

End Base64Facts.


Section PlatformExamples.
Import Samples.

(** A byte order mark is dropped; a sequence cut short and a byte that
    cannot start a sequence each give one replacement character. *)
Example decode_replaces_errors :
  Utf8.decode [xef; xbb; xbf; x41; xc3; xa9; xc3; x41; xff] =
    String "A" (String (ascii_of_N 0xC3) (String (ascii_of_N 0xA9)
      (Utf8.replacement ++ String "A" Utf8.replacement))).
Proof. reflexivity. Qed.

Example parse_nested :
  JSON.parse (" [1, -2.5e+10 ,true, null, {" ++ quoted "k" ++ ": []}] ") =
    Some (VArray [VNumber "1"; VNumber "-2.5e+10"; VBool true; VNull;
                  VObject [("k", VArray [])]]).
Proof. reflexivity. Qed.

Example parse_last_duplicate_wins :
  JSON.parse ("{" ++ quoted "a" ++ ":1," ++ quoted "b" ++ ":2,"
              ++ quoted "a" ++ ":3}") =
    Some (VObject [("a", VNumber "3"); ("b", VNumber "2")]).
Proof. reflexivity. Qed.

Example parse_rejects_trailing_comma : JSON.parse "[1,]" = None.
Proof. reflexivity. Qed.

Example parse_rejects_leading_zero : JSON.parse "01" = None.
Proof. reflexivity. Qed.

Example parse_rejects_empty : JSON.parse "" = None.
Proof. reflexivity. Qed.

Example parse_surrogate_pair :
  JSON.parse (quoted "\ud83d\ude00") = Some (VString (Utf8.encode 0x1F600)).
Proof. reflexivity. Qed.

Example serialize_skips_undefined :
  JSON.serialize
    (VObject [("a", VUndefined); ("b", VArray [VUndefined; VString "x"])]) =
    Some ("{" ++ quoted "b" ++ ":[null," ++ quoted "x" ++ "]}").
Proof. reflexivity. Qed.

Example get_of_undefined_throws : JSON.get VUndefined "text" = None.
Proof. reflexivity. Qed.

Example get_missing_member : JSON.get (VObject []) "text" = Some VUndefined.
Proof. reflexivity. Qed.

Example get_beyond_array : JSON.get (VArray []) "0" = Some VUndefined.
Proof. reflexivity. Qed.

Example get_string_unit : JSON.get (VString "hello") "1" = Some (VString "e").
Proof. reflexivity. Qed.

End PlatformExamples.

(* ===================================================================== *)
(** * Facts about JSON text                                               *)
(* ===================================================================== *)

Section JSONFacts.
Import JSON Script.
Local Open Scope N_scope.

Lemma append_assoc (a b c : string) : (a ++ b) ++ c = a ++ (b ++ c).
Proof. induction a as [|x a IH]; cbn; [reflexivity | now rewrite IH]. Qed.

Lemma parse_chars_escape_char (c : ascii) (tail : string) :
  parse_chars (escape_char c ++ tail) = prepend (String c "") (parse_chars tail).
Proof.
  destruct c as [[] [] [] [] [] [] [] []]; reflexivity.
Qed.

Lemma nibble_inverse (d : N) : d < 16 -> hex_value (hex_char d) = Some d.
Proof.
  intros Hd.
  assert (H : (match hex_value (hex_char d) with
               | Some e => N.eqb e d | None => false end) = true).
  { apply (below_forallb 16 (fun d => match hex_value (hex_char d) with
               | Some e => N.eqb e d | None => false end));
      [vm_compute; reflexivity | exact Hd]. }
  destruct (hex_value (hex_char d)) as [e|]; [|discriminate].
  apply N.eqb_eq in H. now subst.
Qed.

Lemma nibble_of_land (m : N) :
  hex_value (hex_char (N.land m 15)) = Some (m mod 16).
Proof.
  change 15 with (N.ones 4). rewrite N.land_ones. change (2 ^ 4) with 16.
  apply nibble_inverse, N.mod_upper_bound. discriminate.
Qed.

Lemma hex4_inverse (n : N) (tail : string) :
  n < 65536 ->
  exists h1 h2 h3 h4,
    hex4 n ++ tail = String h1 (String h2 (String h3 (String h4 tail))) /\
    hex4_value h1 h2 h3 h4 = Some n.
Proof.
  intros Hn. unfold hex4. do 4 eexists. split; [reflexivity|].
  unfold hex4_value.
  rewrite !nibble_of_land, !N.shiftr_div_pow2.
  change (2 ^ 12) with 4096. change (2 ^ 8) with 256. change (2 ^ 4) with 16.
  f_equal. divmod.
Qed.

Lemma low_escape_rest (a1 a2 a3 a4 a5 a6 : ascii) (r3 : string) (v : N) (r : string) :
  low_escape (String a1 (String a2 (String a3 (String a4 (String a5 (String a6 r3))))))
    = Some (v, r) ->
  r = r3.
Proof.
  unfold low_escape.
  destruct (Ascii.eqb a1 backslash && Ascii.eqb a2 "u"); [|discriminate].
  destruct (hex4_value a3 a4 a5 a6) as [w|]; [|discriminate].
  destruct (is_low_surrogate w); congruence.
Qed.

(** How [parse_chars] reads a [\uXXXX] escape. *)
Lemma parse_chars_unicode_escape (u : N) (tail : string) :
  u < 65536 ->
  parse_chars (unicode_escape u ++ tail) =
    if is_high_surrogate u then
      match low_escape tail with
      | Some (v, r3) =>
          prepend (Utf8.encode (0x10000 + (u - 0xD800) * 0x400 + (v - 0xDC00)))
            (parse_chars r3)
      | None => prepend (Utf8.encode u) (parse_chars tail)
      end
    else prepend (Utf8.encode u) (parse_chars tail).
Proof.
  intros Hu.
  destruct (hex4_inverse u tail Hu) as (h1 & h2 & h3 & h4 & Hshape & Hval).
  unfold unicode_escape. cbn [append]. rewrite Hshape.
  cbn [parse_chars].
  change (Ascii.eqb backslash dquote) with false.
  change (Ascii.eqb backslash backslash) with true.
  change (Ascii.eqb "u" "u") with true.
  cbv iota.
  rewrite Hval.
  destruct (is_high_surrogate u); [|reflexivity].
  destruct tail as [|a1 [|a2 [|a3 [|a4 [|a5 [|a6 r3]]]]]]; try reflexivity.
  destruct (low_escape _) as [[v r3']|] eqn:E; [|reflexivity].
  now rewrite (low_escape_rest _ _ _ _ _ _ _ _ _ E).
Qed.

Lemma low_escape_escape_char (c : ascii) (tail : string) :
  low_escape (escape_char c ++ tail) = None.
Proof.
  destruct c as [[] [] [] [] [] [] [] []];
    try (destruct tail as [|a1 [|a2 [|a3 [|a4 [|a5 r]]]]]; reflexivity).
  all: destruct tail as [|a1 [|a2 [|a3 [|a4 r]]]]; reflexivity.
Qed.

Lemma surrogate_unit_lt (c1 c2 : ascii) :
  N.lor 0xD000 (N.lor (N.shiftl (Utf8.low6 c1) 6) (Utf8.low6 c2)) < 65536.
Proof.
  assert (Hlow : forall c, Utf8.low6 c < 64).
  { intros c. unfold Utf8.low6. change 0x3F with (N.ones 6).
    rewrite N.land_ones. apply N.mod_upper_bound. discriminate. }
  pose proof (Hlow c1). pose proof (Hlow c2).
  rewrite (lor_shiftl_add _ 6) by (simpl; lia).
  change 0xD000 with (N.shiftl 13 12).
  rewrite lor_shiftl_add by (simpl; lia).
  simpl (2 ^ _). lia.
Qed.

(** [quote_chars] writes its input one item at a time: a character through
    [escape_char], or the three bytes of a surrogate as one escape. *)
Lemma quote_chars_cases (c : ascii) (r : string) :
  quote_chars (String c r) = escape_char c ++ quote_chars r \/
  exists c1 c2 r2 u,
    r = String c1 (String c2 r2) /\ u < 65536 /\
    Utf8.surrogate_free (String c r) = false /\
    quote_chars (String c r) = unicode_escape u ++ quote_chars r2.
Proof.
  cbn [quote_chars Utf8.surrogate_free].
  destruct (N_of_ascii c =? 237); [|now left].
  destruct r as [|c1 [|c2 r2]]; try now left.
  destruct (Utf8.between 160 (N_of_ascii c1) 191); [|now left].
  destruct (Utf8.is_cont c2); [|now left].
  right. exists c1, c2, r2. eexists. split; [reflexivity|].
  split; [apply surrogate_unit_lt | split; reflexivity].
Qed.

Lemma low_escape_quoted (s rest : string) (v : N) (r3 : string) :
  low_escape (quote_chars s ++ String dquote rest) = Some (v, r3) ->
  exists s2,
    r3 = quote_chars s2 ++ String dquote rest /\
    (String.length s2 < String.length s)%nat.
Proof.
  destruct s as [|c r].
  - cbn [quote_chars append].
    destruct rest as [|a1 [|a2 [|a3 [|a4 [|a5 r]]]]]; discriminate.
  - destruct (quote_chars_cases c r)
      as [-> | (c1 & c2 & r2 & u & -> & Hu & _ & ->)].
    + rewrite append_assoc, low_escape_escape_char. discriminate.
    + rewrite append_assoc.
      destruct (hex4_inverse u (quote_chars r2 ++ String dquote rest) Hu)
        as (h1 & h2 & h3 & h4 & Hshape & _).
      unfold unicode_escape. cbn [append]. rewrite Hshape.
      intros E. apply low_escape_rest in E. subst r3.
      exists r2. split; [reflexivity | cbn; lia].
Qed.

Lemma parse_chars_quote_chars_bounded (n : nat) :
  forall s rest,
    (String.length s <= n)%nat ->
    exists s',
      parse_chars (quote_chars s ++ String dquote rest) = Some (s', rest) /\
      (Utf8.surrogate_free s = true -> s' = s).
Proof.
  assert (Hempty : forall rest,
            exists s',
              parse_chars (quote_chars "" ++ String dquote rest) = Some (s', rest) /\
              (Utf8.surrogate_free "" = true -> s' = "")).
  { intros rest. exists "". split; [|reflexivity].
    cbn [quote_chars append parse_chars].
    change (Ascii.eqb dquote dquote) with true. reflexivity. }
  induction n as [|n IH]; intros s rest Hlen.
  - destruct s; [apply Hempty | cbn in Hlen; lia].
  - destruct s as [|c r]; [apply Hempty|].
    cbn in Hlen.
    destruct (quote_chars_cases c r)
      as [-> | (c1 & c2 & r2 & u & -> & Hu & Hsur & ->)].
    + rewrite append_assoc, parse_chars_escape_char.
      destruct (IH r rest ltac:(lia)) as (s' & -> & Hsame).
      exists (String c s'). split; [reflexivity|].
      cbn [Utf8.surrogate_free]. intros Hfree.
      apply andb_prop in Hfree as [_ Hfree]. now rewrite (Hsame Hfree).
    + rewrite append_assoc, parse_chars_unicode_escape by exact Hu.
      rewrite Hsur. cbn in Hlen.
      destruct (IH r2 rest ltac:(lia)) as (s' & Hs' & _).
      destruct (is_high_surrogate u).
      * destruct (low_escape _) as [[v r3]|] eqn:E.
        -- apply low_escape_quoted in E as (s2 & -> & Hlt).
           destruct (IH s2 rest ltac:(lia)) as (s'' & -> & _).
           eexists. split; [reflexivity | discriminate].
        -- rewrite Hs'. eexists. split; [reflexivity | discriminate].
      * rewrite Hs'. eexists. split; [reflexivity | discriminate].
Qed.

(** What [JSON.stringify] writes for a string reads back as a string, and
    as the same string when no surrogate is involved. *)
Lemma parse_chars_quote_chars (s rest : string) :
  exists s',
    parse_chars (quote_chars s ++ String dquote rest) = Some (s', rest) /\
    (Utf8.surrogate_free s = true -> s' = s).
Proof. now apply (parse_chars_quote_chars_bounded (String.length s)). Qed.

Lemma skip_ws_length (s : string) :
  (String.length (skip_ws s) <= String.length s)%nat.
Proof.
  induction s as [|c r IH]; cbn [skip_ws]; [lia|].
  destruct (is_ws c); cbn [String.length]; lia.
Qed.

Lemma skip_ws_cons (s : string) (c : ascii) (r : string) :
  skip_ws s = String c r -> (String.length r < String.length s)%nat.
Proof.
  intros H. pose proof (skip_ws_length s) as Hle.
  rewrite H in Hle. cbn [String.length] in Hle. lia.
Qed.

Lemma prepend_some (p : string) (x : option (string * string)) (str r : string) :
  prepend p x = Some (str, r) -> exists str', x = Some (str', r).
Proof.
  destruct x as [[s' r']|]; cbn; [|discriminate].
  intros [= _ ->]. now exists s'.
Qed.

Lemma parse_chars_length_bounded (n : nat) :
  forall s str r,
    (String.length s <= n)%nat ->
    parse_chars s = Some (str, r) ->
    (String.length r < String.length s)%nat.
Proof.
  induction n as [|n IH]; intros s str r Hlen.
  - destruct s; [discriminate | cbn in Hlen; lia].
  - destruct s as [|c s0]; [discriminate|].
    cbn [String.length] in Hlen |- *.
    cbn [parse_chars].
    destruct (Ascii.eqb c dquote).
    { intros [= _ ->]. lia. }
    destruct (Ascii.eqb c backslash).
    + destruct s0 as [|e r1]; [discriminate|].
      cbn [String.length] in Hlen |- *.
      destruct (Ascii.eqb e "u").
      * destruct r1 as [|h1 [|h2 [|h3 [|h4 r2]]]]; try discriminate.
        cbn [String.length] in Hlen |- *.
        destruct (hex4_value h1 h2 h3 h4) as [u|]; [|discriminate].
        assert (Hplain : forall str,
                  prepend (Utf8.encode u) (parse_chars r2) = Some (str, r) ->
                  (String.length r < S (S (S (S (S (S (String.length r2)))))))%nat).
        { intros str0 H. apply prepend_some in H as [str' H].
          apply IH in H; lia. }
        destruct (is_high_surrogate u); [|apply Hplain].
        destruct r2 as [|a1 [|a2 [|a3 [|a4 [|a5 [|a6 r3]]]]]]; try apply Hplain.
        destruct (low_escape _) as [[v ?]|]; [|apply Hplain].
        intros H. apply prepend_some in H as [str' H].
        apply IH in H; cbn [String.length] in *; lia.
      * destruct (simple_escape e); [|discriminate].
        intros H. apply prepend_some in H as [str' H].
        apply IH in H; lia.
    + destruct (N.ltb (N_of_ascii c) 32); [discriminate|].
      intros H. apply prepend_some in H as [str' H].
      apply IH in H; lia.
Qed.

Lemma parse_chars_length (s str r : string) :
  parse_chars s = Some (str, r) -> (String.length r < String.length s)%nat.
Proof. now apply (parse_chars_length_bounded (String.length s)). Qed.

Lemma span_digits_length (s : string) :
  (String.length (fst (span_digits s)) + String.length (snd (span_digits s))
   = String.length s)%nat.
Proof.
  induction s as [|c r IH]; cbn [span_digits]; [reflexivity|].
  destruct (is_digit c); [|reflexivity].
  destruct (span_digits r) as [ds rest]. cbn in *. lia.
Qed.

Lemma digits1_length (s ds r : string) :
  digits1 s = Some (ds, r) -> (String.length r < String.length s)%nat.
Proof.
  unfold digits1. pose proof (span_digits_length s) as H.
  destruct (span_digits s) as [[|d ds'] rest]; [discriminate|].
  intros [= _ ->]. cbn in H. lia.
Qed.

Lemma prepend_digits1_length (p s str r : string) :
  prepend p (digits1 s) = Some (str, r) ->
  (String.length r < String.length s)%nat.
Proof.
  intros H. apply prepend_some in H as [str' H]. now apply digits1_length in H.
Qed.

Lemma parse_number_length (s text r : string) :
  parse_number s = Some (text, r) -> (String.length r < String.length s)%nat.
Proof.
  unfold parse_number.
  set (signed := match s with
                 | String c r0 => if Ascii.eqb c "-" then ("-", r0) else ("", s)
                 | EmptyString => ("", s)
                 end).
  assert (Hs1 : (String.length (snd signed) <= String.length s)%nat).
  { subst signed. destruct s as [|c r0]; [cbn; lia|].
    destruct (Ascii.eqb c "-"); cbn; lia. }
  destruct signed as [sign s1]. cbn [snd] in Hs1.
  set (int_part := match s1 with
                   | String c r0 =>
                       if Ascii.eqb c "0" then Some ("0", r0)
                       else if is_digit c then digits1 s1 else None
                   | EmptyString => None
                   end).
  assert (Hint : forall i s2, int_part = Some (i, s2) ->
                   (String.length s2 < String.length s1)%nat).
  { subst int_part. intros i s2. destruct s1 as [|c r0]; [discriminate|].
    destruct (Ascii.eqb c "0"); [intros [= _ <-]; cbn; lia|].
    destruct (is_digit c); [apply digits1_length | discriminate]. }
  destruct int_part as [[int s2]|]; [|discriminate].
  specialize (Hint _ _ eq_refl).
  set (frac_part := match s2 with
                    | String c r0 =>
                        if Ascii.eqb c "." then prepend "." (digits1 r0)
                        else Some ("", s2)
                    | EmptyString => Some ("", s2)
                    end).
  assert (Hfrac : forall f s3, frac_part = Some (f, s3) ->
                    (String.length s3 <= String.length s2)%nat).
  { subst frac_part. intros f s3. destruct s2 as [|c r0]; [intros [= _ <-]; lia|].
    destruct (Ascii.eqb c ".").
    - intros H. apply prepend_digits1_length in H. cbn. lia.
    - intros [= _ <-]. lia. }
  destruct frac_part as [[frac s3]|]; [|discriminate].
  specialize (Hfrac _ _ eq_refl).
  set (exp_part := match s3 with
                   | String c r0 =>
                       if Ascii.eqb c "e" || Ascii.eqb c "E" then
                         match r0 with
                         | String g r' =>
                             if Ascii.eqb g "+" || Ascii.eqb g "-" then
                               prepend (String c (String g "")) (digits1 r')
                             else prepend (String c "") (digits1 r0)
                         | EmptyString => None
                         end
                       else Some ("", s3)
                   | EmptyString => Some ("", s3)
                   end).
  assert (Hexp : forall e s4, exp_part = Some (e, s4) ->
                   (String.length s4 <= String.length s3)%nat).
  { subst exp_part. intros e s4. destruct s3 as [|c r0]; [intros [= _ <-]; lia|].
    destruct (Ascii.eqb c "e" || Ascii.eqb c "E"); [|intros [= _ <-]; lia].
    destruct r0 as [|g r']; [discriminate|].
    destruct (Ascii.eqb g "+" || Ascii.eqb g "-"); intros H;
      apply prepend_digits1_length in H; cbn in *; lia. }
  destruct exp_part as [[e s4]|]; [|discriminate].
  specialize (Hexp _ _ eq_refl).
  intros [= _ <-]. lia.
Qed.

Lemma strip_prefix_length (p s r : string) :
  strip_prefix p s = Some r -> (String.length r <= String.length s)%nat.
Proof.
  revert s. induction p as [|a p IH]; intros s; cbn [strip_prefix].
  - intros [= <-]. lia.
  - destruct s as [|b s']; [discriminate|].
    destruct (Ascii.eqb a b); [|discriminate].
    intros H. apply IH in H. cbn. lia.
Qed.

Lemma keyword_length (word : string) (v w : jsval) (s r : string) :
  keyword word v s = Some (w, r) -> (String.length r <= String.length s)%nat.
Proof.
  unfold keyword. destruct (strip_prefix word s) eqn:E; [|discriminate].
  intros [= _ <-]. now apply strip_prefix_length in E.
Qed.

(** A successful parse consumes input, and succeeds again with any fuel
    above twice what it consumed. *)
Lemma parse_fuel_enough (n : nat) :
  (forall s v r,
     parse_value n s = Some (v, r) ->
     (String.length r < String.length s)%nat /\
     forall m, (2 * (String.length s - String.length r) <= S m)%nat ->
               parse_value m s = Some (v, r)) /\
  (forall s acc v r,
     parse_elements n s acc = Some (v, r) ->
     (String.length r < String.length s)%nat /\
     forall m, (2 * (String.length s - String.length r) <= m + 2)%nat ->
               parse_elements m s acc = Some (v, r)) /\
  (forall s acc v r,
     parse_members n s acc = Some (v, r) ->
     (String.length r < String.length s)%nat /\
     forall m, (2 * (String.length s - String.length r) <= m + 2)%nat ->
               parse_members m s acc = Some (v, r)).
Proof.
  induction n as [|n (IHv & IHe & IHm)].
  - repeat split; discriminate.
  - split; [|split].
    + intros s v r.
      change (parse_value (S n) s) with
        (value_at (parse_elements n) (parse_members n) s).
      intros H.
      assert (Hgo : (String.length r < String.length s)%nat /\
                    forall m, value_at (parse_elements m) (parse_members m) s
                              = Some (v, r) \/
                              (2 * (String.length s - String.length r) > m + 2)%nat).
      { revert H. unfold value_at.
        destruct (skip_ws s) as [|c r0] eqn:Es; [discriminate|].
        apply skip_ws_cons in Es.
        destruct (Ascii.eqb c "{").
        { destruct (skip_ws r0) as [|c' r'] eqn:Er0; [discriminate|].
          apply skip_ws_cons in Er0.
          destruct (Ascii.eqb c' "}").
          - intros [= <- <-]. split; [lia | now left].
          - intros H. apply IHm in H as [Hlt Hm]. split; [lia|].
            intros m.
            destruct (Nat.le_gt_cases
                        (2 * (String.length r0 - String.length r)) (m + 2));
              [left; now apply Hm | right; lia]. }
        destruct (Ascii.eqb c "[").
        { destruct (skip_ws r0) as [|c' r'] eqn:Er0; [discriminate|].
          apply skip_ws_cons in Er0.
          destruct (Ascii.eqb c' "]").
          - intros [= <- <-]. split; [lia | now left].
          - intros H. apply IHe in H as [Hlt Hm]. split; [lia|].
            intros m.
            destruct (Nat.le_gt_cases
                        (2 * (String.length r0 - String.length r)) (m + 2));
              [left; now apply Hm | right; lia]. }
        destruct (Ascii.eqb c dquote).
        { destruct (parse_chars r0) as [[str r']|] eqn:Ec; [|discriminate].
          apply parse_chars_length in Ec.
          intros [= <- <-]. split; [lia | now left]. }
        destruct (Ascii.eqb c "t").
        { intros H. pose proof (keyword_length _ _ _ _ _ H).
          split; [lia | now left]. }
        destruct (Ascii.eqb c "f").
        { intros H. pose proof (keyword_length _ _ _ _ _ H).
          split; [lia | now left]. }
        destruct (Ascii.eqb c "n").
        { intros H. pose proof (keyword_length _ _ _ _ _ H).
          split; [lia | now left]. }
        destruct (parse_number (String c r0)) as [[text r']|] eqn:En;
          [|discriminate].
        apply parse_number_length in En. cbn [String.length] in En.
        intros [= <- <-]. split; [lia | now left]. }
      destruct Hgo as [Hlt Hgo]. split; [exact Hlt|].
      intros [|m] Hm; [lia|].
      change (parse_value (S m) s) with
        (value_at (parse_elements m) (parse_members m) s).
      destruct (Hgo m) as [Hok|Hbad]; [exact Hok | lia].
    + intros s acc v r.
      change (parse_elements (S n) s acc) with
        (elements_at (parse_value n) (parse_elements n) s acc).
      unfold elements_at.
      destruct (parse_value n s) as [[v1 r1]|] eqn:Ev; [|discriminate].
      apply IHv in Ev as [Hlt1 Hv].
      destruct (skip_ws r1) as [|c r'] eqn:Er1; [discriminate|].
      pose proof (skip_ws_cons _ _ _ Er1) as Hlt2.
      destruct (Ascii.eqb c ",") eqn:Ecomma.
      * intros H. apply IHe in H as [Hlt3 He]. split; [lia|].
        intros [|m] Hm; [lia|].
        change (parse_elements (S m) s acc) with
          (elements_at (parse_value m) (parse_elements m) s acc).
        unfold elements_at.
        rewrite (Hv m) by lia. rewrite Er1, Ecomma.
        apply He. lia.
      * destruct (Ascii.eqb c "]") eqn:Eclose; [|discriminate].
        intros [= <- <-]. split; [lia|].
        intros [|m] Hm; [lia|].
        change (parse_elements (S m) s acc) with
          (elements_at (parse_value m) (parse_elements m) s acc).
        unfold elements_at.
        rewrite (Hv m) by lia. rewrite Er1, Ecomma, Eclose. reflexivity.
    + intros s acc v r.
      change (parse_members (S n) s acc) with
        (members_at (parse_value n) (parse_members n) s acc).
      unfold members_at.
      destruct (skip_ws s) as [|q r0] eqn:Es; [discriminate|].
      pose proof (skip_ws_cons _ _ _ Es) as Hlt0.
      destruct (Ascii.eqb q dquote) eqn:Eq; [|discriminate].
      destruct (parse_chars r0) as [[k r1]|] eqn:Ek; [|discriminate].
      pose proof (parse_chars_length _ _ _ Ek) as Hlt1.
      destruct (skip_ws r1) as [|c r2] eqn:Er1; [discriminate|].
      pose proof (skip_ws_cons _ _ _ Er1) as Hlt2.
      destruct (Ascii.eqb c ":") eqn:Ecolon; [|discriminate].
      destruct (parse_value n r2) as [[v1 r3]|] eqn:Ev; [|discriminate].
      apply IHv in Ev as [Hlt3 Hv].
      destruct (skip_ws r3) as [|d r4] eqn:Er3; [discriminate|].
      pose proof (skip_ws_cons _ _ _ Er3) as Hlt4.
      destruct (Ascii.eqb d ",") eqn:Ecomma.
      * intros H. apply IHm in H as [Hlt5 Hmem]. split; [lia|].
        intros [|m] Hm; [lia|].
        change (parse_members (S m) s acc) with
          (members_at (parse_value m) (parse_members m) s acc).
        unfold members_at.
        rewrite Es, Eq, Ek, Er1, Ecolon.
        rewrite (Hv m) by lia. rewrite Er3, Ecomma.
        apply Hmem. lia.
      * destruct (Ascii.eqb d "}") eqn:Eclose; [|discriminate].
        intros [= <- <-]. split; [lia|].
        intros [|m] Hm; [lia|].
        change (parse_members (S m) s acc) with
          (members_at (parse_value m) (parse_members m) s acc).
        unfold members_at.
        rewrite Es, Eq, Ek, Er1, Ecolon.
        rewrite (Hv m) by lia. rewrite Er3, Ecomma, Eclose. reflexivity.
Qed.

(** The fuel of [parse] is enough: a text that any amount of fuel reads as
    a value followed by white space only is read by [parse]. *)
Theorem parse_complete (n : nat) (text : string) (v : jsval) (r : string) :
  parse_value n text = Some (v, r) -> skip_ws r = "" ->
  parse text = Some v.
Proof.
  intros Hv Hr. unfold parse.
  destruct (proj1 (parse_fuel_enough n) _ _ _ Hv) as [Hlt Hm].
  rewrite (Hm (S (2 * String.length text))) by lia.
  now rewrite Hr.
Qed.

Lemma parse_value_succ (n : nat) (s : string) :
  parse_value (Nat.succ n) s = value_at (parse_elements n) (parse_members n) s.
Proof. reflexivity. Qed.

Lemma parse_elements_succ (n : nat) (s : string) (acc : list jsval) :
  parse_elements (Nat.succ n) s acc =
    elements_at (parse_value n) (parse_elements n) s acc.
Proof. reflexivity. Qed.

Lemma parse_members_succ (n : nat) (s : string) (acc : list (string * jsval)) :
  parse_members (Nat.succ n) s acc =
    members_at (parse_value n) (parse_members n) s acc.
Proof. reflexivity. Qed.

Ltac succs k :=
  match k with
  | O => constr:(O)
  | S ?k' => let r := succs k' in constr:(Nat.succ r)
  end.

Ltac parser_step :=
  first
    [ rewrite parse_value_succ; unfold value_at
    | rewrite parse_elements_succ; unfold elements_at
    | rewrite parse_members_succ; unfold members_at
    | match goal with
      | |- context [parse_chars (quote_chars ?s ++ String ?c ?r)] =>
          let s' := fresh "s'" in
          change (String c r) with (String dquote r);
          let Hsame := fresh "Hsame" in
          destruct (parse_chars_quote_chars s r) as (s' & -> & Hsame)
      end ];
  cbn -[Nat.succ].

Lemma payload_parses_with (p b : string) (P : option (jsval * string) -> Prop) :
  (forall p' b',
     (Utf8.surrogate_free p = true -> p' = p) ->
     (Utf8.surrogate_free b = true -> b' = b) ->
     P (Some (payload p' b', ""))) ->
  P (parse_value 40
       (match JSON.serialize (payload p b) with Some t => t | None => "" end)).
Proof.
  intros HP.
  unfold payload at 1. cbn [serialize map join]. unfold quote.
  repeat (progress (try rewrite !append_assoc; cbn [append])).
  let f := succs 40%nat in change 40%nat with f.
  repeat parser_step.
  apply HP; assumption.
Qed.

(** The body of the command is JSON text, and reads back as the payload. *)
Lemma command_body_parses (p b : string) :
  exists text p' b',
    InvokeModelCommand.body (command p b) = VString text /\
    JSON.parse text = Some (payload p' b') /\
    (Utf8.surrogate_free p = true -> p' = p) /\
    (Utf8.surrogate_free b = true -> b' = b).
Proof.
  set (text := match JSON.serialize (payload p b) with
               | Some t => t
               | None => ""
               end).
  assert (Hparse : exists p' b',
             parse_value 40 text = Some (payload p' b', "") /\
             (Utf8.surrogate_free p = true -> p' = p) /\
             (Utf8.surrogate_free b = true -> b' = b)).
  { apply (payload_parses_with p b
             (fun r => exists p' b',
                r = Some (payload p' b', "") /\
                (Utf8.surrogate_free p = true -> p' = p) /\
                (Utf8.surrogate_free b = true -> b' = b))).
    intros p' b' Hp Hb. exists p', b'. auto. }
  destruct Hparse as (p' & b' & Hvalue & Hp & Hb).
  exists text, p', b'. repeat split; try assumption.
  now apply (parse_complete 40 text _ "").
Qed.

End JSONFacts.

(* ===================================================================== *)
(** * Facts about the script                                              *)
(* ===================================================================== *)

Section ScriptFacts.
Import Script.

Variable world : World.

(** ** [loadImageAsBase64] *)

Lemma loadImageAsBase64_readable (filePath : string) (data : list byte) (t : Trace) :
  fs_readFile world filePath = inr data ->
  loadImageAsBase64 world filePath t = (Returned (Base64.encode data), t).
Proof.
  intros Hread.
  unfold loadImageAsBase64, try_catch, bind, readFile.
  rewrite Hread. reflexivity.
Qed.

Lemma loadImageAsBase64_unreadable (filePath : string) (error : thrown) (t : Trace) :
  fs_readFile world filePath = inl error ->
  loadImageAsBase64 world filePath t =
    (Threw error,
     with_stderr t [LogString "Error loading the image:"; LogThrown error]).
Proof.
  intros Hread.
  unfold loadImageAsBase64, try_catch, bind, readFile.
  rewrite Hread. reflexivity.
Qed.

(** ** [invokeClaude] *)

(** Reading a property changes nothing in the trace. *)
Lemma member_trace (value : jsval) (key : string) (t : Trace) :
  snd (member value key t) = t.
Proof. unfold member. now destruct (JSON.get value key). Qed.

Lemma completion_text_trace (responseBody : jsval) (t : Trace) :
  snd (completion_text responseBody t) = t.
Proof.
  unfold completion_text, bind, member.
  destruct (JSON.get responseBody "content") as [content|]; [|reflexivity].
  cbn. destruct (JSON.get content "0") as [first|]; [|reflexivity].
  cbn. now destruct (JSON.get first "text").
Qed.

(** What a property read returns or throws does not depend on the trace. *)
Lemma completion_text_outcome (responseBody : jsval) (t t' : Trace) :
  fst (completion_text responseBody t) = fst (completion_text responseBody t').
Proof.
  unfold completion_text, bind, member.
  destruct (JSON.get responseBody "content") as [content|]; [|reflexivity].
  cbn. destruct (JSON.get content "0") as [first|]; [|reflexivity].
  cbn. now destruct (JSON.get first "text").
Qed.

Lemma invokeClaude_unreadable (prompt imagePath : string) (error : thrown) (t : Trace) :
  fs_readFile world imagePath = inl error ->
  invokeClaude world prompt imagePath t =
    (Threw error,
     with_stderr t [LogString "Error loading the image:"; LogThrown error]).
Proof.
  intros Hread. unfold invokeClaude, bind.
  now rewrite (loadImageAsBase64_unreadable _ _ _ Hread).
Qed.

Lemma invokeClaude_readable (prompt imagePath : string) (data : list byte) (t : Trace) :
  fs_readFile world imagePath = inr data ->
  let cmd := command prompt (Base64.encode data) in
  invokeClaude world prompt imagePath t =
    settle (endpoint world cmd) (with_exchange t cmd (endpoint world cmd)).
Proof.
  intros Hread cmd. unfold invokeClaude, bind at 1.
  rewrite (loadImageAsBase64_readable _ _ _ Hread).
  unfold try_catch, bind, client_send. fold cmd.
  fold (with_exchange t cmd (endpoint world cmd)).
  destruct (endpoint world cmd) as [err|response_body]; cbn.
  - destruct err; reflexivity.
  - unfold JSON_parse.
    destruct (JSON.parse (Utf8.decode response_body)) as [responseBody|]; cbn.
    + destruct (completion_text responseBody _) as [[text|e] t'] eqn:E.
      * reflexivity.
      * pose proof (completion_text_trace responseBody
                      (with_exchange t cmd (inr response_body))) as Ht.
        rewrite E in Ht. cbn in Ht. subst t'.
        assert (He : e = TypeError).
        { revert E. unfold completion_text, bind, member.
          destruct (JSON.get responseBody "content") as [c|]; cbn;
            [|intros [=]; congruence].
          destruct (JSON.get c "0") as [f|]; cbn; [|intros [=]; congruence].
          destruct (JSON.get f "text"); cbn; intros [=]; congruence. }
        subst e. reflexivity.
    + reflexivity.
Qed.

Lemma settle_exchanges (reply : answer) (t : Trace) :
  exchanges (snd (settle reply t)) = exchanges t.
Proof.
  unfold settle. destruct reply as [err|response_body].
  - now destruct (instanceof_AccessDeniedException err).
  - destruct (JSON.parse _); [|reflexivity].
    now rewrite completion_text_trace.
Qed.

(** An exchange on record for a run of [invokeClaude] tells that the image
    was read, what command it went into, and what the endpoint said. *)
Lemma invokeClaude_exchange (prompt imagePath : string) (t : Trace)
  (cmd : InvokeModelCommand.input) (reply : answer) :
  endpoint_answered (invokeClaude world prompt imagePath) t cmd reply ->
  exists data,
    fs_readFile world imagePath = inr data /\
    cmd = command prompt (Base64.encode data) /\
    endpoint world cmd = reply /\
    invokeClaude world prompt imagePath t = settle reply (with_exchange t cmd reply).
Proof.
  unfold endpoint_answered. intros Hrec.
  destruct (fs_readFile world imagePath) as [error|data] eqn:Hread.
  - rewrite (invokeClaude_unreadable _ _ _ _ Hread) in Hrec. cbn in Hrec.
    apply (f_equal (@List.length _)) in Hrec.
    rewrite length_app in Hrec. cbn in Hrec. lia.
  - pose proof (invokeClaude_readable prompt _ _ t Hread) as Hrun.
    cbv zeta in Hrun. rewrite Hrun, settle_exchanges in Hrec. cbn in Hrec.
    apply app_inv_head in Hrec. injection Hrec as Hcmd Hreply.
    exists data. subst cmd. rewrite Hreply in Hrun. auto.
Qed.

(** ** The loader *)

(** C2. When the file can be read, [loadImageAsBase64] returns a string
    that base64-decodes to exactly the bytes of the file. *)
Theorem loadImageAsBase64_round_trip (filePath : string) (data : list byte) (t : Trace) :
  fs_readFile world filePath = inr data ->
  exists base64String,
    loadImageAsBase64 world filePath t = (Returned base64String, t) /\
    Base64.decode base64String = Some data.
Proof.
  intros Hread. exists (Base64.encode data). split.
  - now apply loadImageAsBase64_readable.
  - apply decode_encode.
Qed.

(** C6. When the file cannot be read, [loadImageAsBase64] returns nothing:
    it throws, and what it throws is the very error of [fs.readFile]. *)
Theorem loadImageAsBase64_rethrows (filePath : string) (error : thrown) (t : Trace) :
  fs_readFile world filePath = inl error ->
  fst (loadImageAsBase64 world filePath t) = Threw error /\
  forall base64String,
    fst (loadImageAsBase64 world filePath t) <> Returned base64String.
Proof.
  intros Hread. rewrite (loadImageAsBase64_unreadable _ _ _ Hread). cbn.
  split; [reflexivity | discriminate].
Qed.

(** C7, as amended. [loadImageAsBase64] never writes to standard output
    and never contacts the endpoint. When the read succeeds it writes
    nothing at all. When the read fails it makes one [console.error] call,
    with the label and the error, before it rethrows. *)
Theorem loadImageAsBase64_effects (filePath : string) (t : Trace) :
  let t' := snd (loadImageAsBase64 world filePath t) in
  stdout t' = stdout t /\
  exchanges t' = exchanges t /\
  match fs_readFile world filePath with
  | inr _ => t' = t
  | inl error =>
      stderr t' =
        (stderr t ++ [[LogString "Error loading the image:"; LogThrown error]])%list
  end.
Proof.
  destruct (fs_readFile world filePath) as [error|data] eqn:Hread; cbv zeta.
  - rewrite (loadImageAsBase64_unreadable _ _ _ Hread). cbn. auto.
  - rewrite (loadImageAsBase64_readable _ _ _ Hread). cbn. auto.
Qed.

(** ** The invoker: what comes back *)

(** The text of the first content element is what [invokeClaude]
    returns. *)
Lemma invokeClaude_returns_first_text (prompt imagePath : string) (t : Trace)
  (cmd : InvokeModelCommand.input) (response_body : list byte)
  (props first : list (string * jsval)) (rest : list jsval) (text : jsval) :
  endpoint_answered (invokeClaude world prompt imagePath) t cmd (inr response_body) ->
  JSON.parse (Utf8.decode response_body) = Some (VObject props) ->
  JSON.lookup "content" props = Some (VArray (VObject first :: rest)) ->
  JSON.lookup "text" first = Some text ->
  invokeClaude world prompt imagePath t =
    (Returned text, with_exchange t cmd (inr response_body)).
Proof.
  intros Hrec Hparse Hcontent Htext.
  destruct (invokeClaude_exchange _ _ _ _ _ Hrec) as (data & _ & _ & _ & ->).
  unfold settle. rewrite Hparse.
  unfold completion_text, bind, member. cbn.
  rewrite Hcontent. cbn. rewrite Htext. reflexivity.
Qed.

Lemma parse_hello :
  JSON.parse (Utf8.decode Samples.hello_response) =
    Some (VObject [("content", VArray [VObject [("text", VString "hello")]])]).
Proof. vm_compute. reflexivity. Qed.

(** C1. Whatever the prompt and the image path, when the endpoint answers
    with the body whose [content] is one element with [text] [hello],
    [invokeClaude] returns the string [hello]. *)
Theorem invokeClaude_returns_hello (prompt imagePath : string) (t : Trace)
  (cmd : InvokeModelCommand.input) :
  endpoint_answered (invokeClaude world prompt imagePath) t cmd
    (inr Samples.hello_response) ->
  fst (invokeClaude world prompt imagePath t) = Returned (VString "hello").
Proof.
  intros Hrec.
  rewrite (invokeClaude_returns_first_text _ _ _ _ _ _ _ _ _ Hrec parse_hello
             eq_refl eq_refl).
  reflexivity.
Qed.

(** C3. When the endpoint raises an access-denied exception,
    [invokeClaude] does not throw: it returns [undefined], after one
    [console.error] call whose message names the model id. *)
Theorem invokeClaude_access_denied (prompt imagePath : string) (t : Trace)
  (cmd : InvokeModelCommand.input) (message : string) :
  endpoint_answered (invokeClaude world prompt imagePath) t cmd
    (inl (AccessDeniedException message)) ->
  fst (invokeClaude world prompt imagePath t) = Returned VUndefined /\
  stderr (snd (invokeClaude world prompt imagePath t)) =
    (stderr t ++ [[LogString access_denied_warning]])%list /\
  access_denied_warning =
    "Access denied. Ensure you have the correct permissions to invoke "
    ++ "anthropic.claude-3-haiku-20240307-v1:0" ++ ".".
Proof.
  intros Hrec.
  destruct (invokeClaude_exchange _ _ _ _ _ Hrec) as (data & _ & _ & _ & ->).
  cbn. auto.
Qed.

(** C4. Every other failure of the exchange reaches the caller as it is:
    an exception of the endpoint that is not access-denied, the
    SyntaxError of a body that is not JSON, and an exception of the
    property reads. Nothing is returned and nothing is written. *)
Theorem invokeClaude_propagates (prompt imagePath : string) (t : Trace)
  (cmd : InvokeModelCommand.input) (reply : answer) :
  endpoint_answered (invokeClaude world prompt imagePath) t cmd reply ->
  (forall err,
     reply = inl err -> instanceof_AccessDeniedException err = false ->
     invokeClaude world prompt imagePath t = (Threw err, with_exchange t cmd reply))
  /\
  (forall response_body,
     reply = inr response_body ->
     JSON.parse (Utf8.decode response_body) = None ->
     invokeClaude world prompt imagePath t =
       (Threw SyntaxError, with_exchange t cmd reply))
  /\
  (forall response_body responseBody err,
     reply = inr response_body ->
     JSON.parse (Utf8.decode response_body) = Some responseBody ->
     fst (completion_text responseBody t) = Threw err ->
     invokeClaude world prompt imagePath t = (Threw err, with_exchange t cmd reply)).
Proof.
  intros Hrec.
  destruct (invokeClaude_exchange _ _ _ _ _ Hrec) as (data & _ & _ & _ & ->).
  repeat split.
  - intros err -> Hother. cbn. now rewrite Hother.
  - intros response_body -> Hparse. cbn. now rewrite Hparse.
  - intros response_body responseBody err -> Hparse Hthrow. cbn.
    rewrite Hparse.
    pose proof (completion_text_trace responseBody
                  (with_exchange t cmd (inr response_body))) as Htrace.
    destruct (completion_text responseBody (with_exchange _ _ _))
      as [o t'] eqn:E.
    cbn in Htrace. subst t'. f_equal.
    rewrite <- Hthrow.
    change o with (fst (o, with_exchange t cmd (inr response_body))).
    rewrite <- E. apply completion_text_outcome.
Qed.

(** C9, as amended. When the body is a JSON object whose [content] is an
    empty array, the read of [text] throws a TypeError, which reaches the
    caller. When the first element of [content] is an object without a
    [text] member, nothing fails: [invokeClaude] returns [undefined]. *)
Theorem invokeClaude_without_text (prompt imagePath : string) (t : Trace)
  (cmd : InvokeModelCommand.input) (response_body : list byte)
  (props : list (string * jsval)) :
  endpoint_answered (invokeClaude world prompt imagePath) t cmd (inr response_body) ->
  JSON.parse (Utf8.decode response_body) = Some (VObject props) ->
  (JSON.lookup "content" props = Some (VArray []) ->
   invokeClaude world prompt imagePath t =
     (Threw TypeError, with_exchange t cmd (inr response_body)))
  /\
  (forall first rest,
     JSON.lookup "content" props = Some (VArray (VObject first :: rest)) ->
     JSON.lookup "text" first = None ->
     invokeClaude world prompt imagePath t =
       (Returned VUndefined, with_exchange t cmd (inr response_body))).
Proof.
  intros Hrec Hparse.
  destruct (invokeClaude_exchange _ _ _ _ _ Hrec) as (data & _ & _ & _ & ->).
  unfold settle. rewrite Hparse.
  unfold completion_text, bind, member. cbn.
  split.
  - intros ->. reflexivity.
  - intros first rest -> Htext. cbn. rewrite Htext. reflexivity.
Qed.

(** ** The invoker: what goes out *)

(** C5. Whatever the prompt and the base64 string, [payload] holds one
    message, whose [content] holds two parts: the image block with the
    base64 string, then the text block with the prompt. The body of the
    command is JSON text that reads back with the same shape, and with the
    same prompt when the prompt has no unpaired surrogate. *)
Theorem payload_one_message_two_parts (prompt imageBase64 : string) :
  (exists message image_block text_block,
     JSON.get (payload prompt imageBase64) "messages" = Some (VArray [message]) /\
     JSON.get message "content" = Some (VArray [image_block; text_block]) /\
     JSON.get image_block "type" = Some (VString "image") /\
     JSON.get_path image_block ["source"; "data"] = Some (VString imageBase64) /\
     text_block = VObject [("type", VString "text"); ("text", VString prompt)])
  /\
  (exists text parsed message image_block text_block read_prompt,
     InvokeModelCommand.body (command prompt imageBase64) = VString text /\
     JSON.parse text = Some parsed /\
     JSON.get parsed "messages" = Some (VArray [message]) /\
     JSON.get message "content" = Some (VArray [image_block; text_block]) /\
     JSON.get image_block "type" = Some (VString "image") /\
     text_block = VObject [("type", VString "text"); ("text", VString read_prompt)] /\
     (Utf8.surrogate_free prompt = true -> read_prompt = prompt)).
Proof.
  split.
  - do 3 eexists. repeat split.
  - destruct (command_body_parses prompt imageBase64)
      as (text & p' & b' & Hbody & Hparse & Hp & _).
    exists text, (payload p' b'). do 3 eexists. exists p'.
    split; [exact Hbody|]. split; [exact Hparse|].
    repeat split. exact Hp.
Qed.

(** C8. The command of every exchange carries [modelId], [contentType] and
    [accept], and its body is JSON text: an object with exactly the
    members [messages], [max_tokens], [temperature], [anthropic_version]
    and [stop_sequences]. *)
Theorem invokeClaude_request_fields (prompt imagePath : string) (t : Trace)
  (cmd : InvokeModelCommand.input) (reply : answer) :
  endpoint_answered (invokeClaude world prompt imagePath) t cmd reply ->
  InvokeModelCommand.modelId cmd = "anthropic.claude-3-haiku-20240307-v1:0" /\
  InvokeModelCommand.contentType cmd = "application/json" /\
  InvokeModelCommand.accept cmd = "application/json" /\
  exists text members,
    InvokeModelCommand.body cmd = VString text /\
    JSON.parse text = Some (VObject members) /\
    map fst members =
      ["messages"; "max_tokens"; "temperature"; "anthropic_version";
       "stop_sequences"].
Proof.
  intros Hrec.
  destruct (invokeClaude_exchange _ _ _ _ _ Hrec) as (data & _ & -> & _ & _).
  repeat split.
  destruct (command_body_parses prompt (Base64.encode data))
    as (text & p' & b' & Hbody & Hparse & _ & _).
  exists text. eexists. split; [exact Hbody|]. split; [exact Hparse|].
  reflexivity.
Qed.

(** C10. Whatever file the image path names, the body that goes out is
    JSON text whose image block says [image/png] and carries the base64
    text of the file, and whose generation parameters are the fixed
    ones. *)
Theorem invokeClaude_fixed_parameters (prompt imagePath : string) (t : Trace)
  (cmd : InvokeModelCommand.input) (reply : answer) :
  endpoint_answered (invokeClaude world prompt imagePath) t cmd reply ->
  exists data text parsed,
    fs_readFile world imagePath = inr data /\
    InvokeModelCommand.body cmd = VString text /\
    JSON.parse text = Some parsed /\
    JSON.get_path parsed
      ["messages"; "0"; "content"; "0"; "source"; "media_type"] =
      Some (VString "image/png") /\
    JSON.get_path parsed
      ["messages"; "0"; "content"; "0"; "source"; "data"] =
      Some (VString (Base64.encode data)) /\
    JSON.get parsed "max_tokens" = Some (VNumber "500") /\
    JSON.get parsed "temperature" = Some (VNumber "0.5") /\
    JSON.get parsed "anthropic_version" = Some (VString "bedrock-2023-05-31") /\
    JSON.get parsed "stop_sequences" =
      Some (VArray [VString (String line_feed (String line_feed "Human:"))]).
Proof.
  intros Hrec.
  destruct (invokeClaude_exchange _ _ _ _ _ Hrec) as (data & Hread & -> & _ & _).
  destruct (command_body_parses prompt (Base64.encode data))
    as (text & p' & b' & Hbody & Hparse & _ & Hb).
  rewrite (Hb (encode_surrogate_free data)) in Hparse.
  exists data, text, (payload p' (Base64.encode data)).
  repeat split; assumption.
Qed.

End ScriptFacts.

(* ===================================================================== *)
(** * Runs in the sample surroundings                                     *)
(* ===================================================================== *)

Section Runs.
Import Script Samples.

Example hello_response_bytes :
  hello_response =
    [x7b; x22; x63; x6f; x6e; x74; x65; x6e; x74; x22; x3a; x5b; x7b; x22;
     x74; x65; x78; x74; x22; x3a; x22; x68; x65; x6c; x6c; x6f; x22; x7d;
     x5d; x7d].
Proof. reflexivity. Qed.

Example sample_image_base64 : Base64.encode png_bytes = "iVBORw0KGgo=".
Proof. reflexivity. Qed.

(** The program run as the entry point, the endpoint answering with the
    sample body. *)
Example main_prints_completion :
  fst (main (world_answering (inr hello_response)) empty_trace) = Returned tt /\
  stdout (snd (main (world_answering (inr hello_response)) empty_trace)) =
    [[LogString (String line_feed "Model: Anthropic Claude v3")];
     [LogString "Prompt: Provide me more details about this image"];
     [LogString "Completion:"];
     [LogValue (VString "hello")];
     [LogString (String line_feed "")]].
Proof. split; reflexivity. Qed.

Lemma loadImageAsBase64_round_trip_witness :
  fs_readFile (world_answering (inr hello_response)) image = inr png_bytes /\
  exists base64String,
    loadImageAsBase64 (world_answering (inr hello_response)) image empty_trace =
      (Returned base64String, empty_trace) /\
    Base64.decode base64String = Some png_bytes.
Proof.
  split; [reflexivity|].
  apply loadImageAsBase64_round_trip. reflexivity.
Defined.

Lemma loadImageAsBase64_rethrows_witness :
  fs_readFile (world_answering (inr hello_response)) "missing.png" =
    inl (SystemError "ENOENT") /\
  fst (loadImageAsBase64 (world_answering (inr hello_response)) "missing.png"
         empty_trace) = Threw (SystemError "ENOENT").
Proof.
  split; [reflexivity|].
  apply (loadImageAsBase64_rethrows (world_answering (inr hello_response))
           "missing.png" (SystemError "ENOENT") empty_trace).
  reflexivity.
Defined.

(** C7 as stated fails: reading a missing file writes to standard error. *)
Lemma loadImageAsBase64_writes_on_failure :
  snd (loadImageAsBase64 (world_answering (inr hello_response)) "missing.png"
         empty_trace) =
    {| stdout := [];
       stderr := [[LogString "Error loading the image:";
                   LogThrown (SystemError "ENOENT")]];
       exchanges := [] |} /\
  snd (loadImageAsBase64 (world_answering (inr hello_response)) "missing.png"
         empty_trace) <> empty_trace.
Proof. split; [reflexivity | discriminate]. Qed.

Lemma invokeClaude_returns_hello_witness :
  endpoint_answered
    (invokeClaude (world_answering (inr hello_response)) prompt image)
    empty_trace sample_command (inr hello_response) /\
  fst (invokeClaude (world_answering (inr hello_response)) prompt image
         empty_trace) = Returned (VString "hello").
Proof.
  assert (H : endpoint_answered
                (invokeClaude (world_answering (inr hello_response)) prompt image)
                empty_trace sample_command (inr hello_response))
    by (vm_compute; reflexivity).
  split; [exact H|].
  exact (invokeClaude_returns_hello _ _ _ _ _ H).
Defined.

Lemma invokeClaude_access_denied_witness :
  endpoint_answered
    (invokeClaude (world_answering (inl access_denied)) prompt image)
    empty_trace sample_command (inl access_denied) /\
  fst (invokeClaude (world_answering (inl access_denied)) prompt image
         empty_trace) = Returned VUndefined.
Proof.
  assert (H : endpoint_answered
                (invokeClaude (world_answering (inl access_denied)) prompt image)
                empty_trace sample_command (inl access_denied))
    by (vm_compute; reflexivity).
  split; [exact H|].
  exact (proj1 (invokeClaude_access_denied _ _ _ _ _ _ H)).
Defined.

Lemma invokeClaude_propagates_witness :
  invokeClaude (world_answering (inl throttled)) prompt image empty_trace =
    (Threw throttled, with_exchange empty_trace sample_command (inl throttled)) /\
  invokeClaude (world_answering (inr truncated_response)) prompt image empty_trace =
    (Threw SyntaxError,
     with_exchange empty_trace sample_command (inr truncated_response)).
Proof.
  split.
  - refine (proj1 (invokeClaude_propagates (world_answering (inl throttled))
                     prompt image empty_trace sample_command (inl throttled) _)
              throttled eq_refl eq_refl).
    vm_compute; reflexivity.
  - refine (proj1 (proj2 (invokeClaude_propagates
                     (world_answering (inr truncated_response))
                     prompt image empty_trace sample_command
                     (inr truncated_response) _))
              truncated_response eq_refl _).
    + vm_compute; reflexivity.
    + vm_compute; reflexivity.
Defined.

(** C9 as stated fails: a first content element without [text] makes
    [invokeClaude] return [undefined]; nothing is thrown. *)
Lemma invokeClaude_textless_returns_undefined :
  JSON.parse (Utf8.decode no_text_response) =
    Some (VObject
            [("content", VArray [VObject [("type", VString "tool_use")]])]) /\
  invokeClaude (world_answering (inr no_text_response)) prompt image empty_trace =
    (Returned VUndefined,
     with_exchange empty_trace sample_command (inr no_text_response)).
Proof. split; vm_compute; reflexivity. Qed.

Lemma invokeClaude_without_text_witness :
  invokeClaude (world_answering (inr empty_content_response)) prompt image
    empty_trace =
    (Threw TypeError,
     with_exchange empty_trace sample_command (inr empty_content_response)) /\
  invokeClaude (world_answering (inr no_text_response)) prompt image empty_trace =
    (Returned VUndefined,
     with_exchange empty_trace sample_command (inr no_text_response)).
Proof.
  split.
  - refine (proj1 (invokeClaude_without_text
                     (world_answering (inr empty_content_response))
                     prompt image empty_trace sample_command
                     empty_content_response
                     [("content", VArray [])] _ _) eq_refl).
    + vm_compute; reflexivity.
    + vm_compute; reflexivity.
  - refine (proj2 (invokeClaude_without_text
                     (world_answering (inr no_text_response))
                     prompt image empty_trace sample_command no_text_response
                     [("content", VArray [VObject [("type", VString "tool_use")]])]
                     _ _)
              [("type", VString "tool_use")] [] eq_refl eq_refl).
    + vm_compute; reflexivity.
    + vm_compute; reflexivity.
Defined.

Lemma invokeClaude_request_fields_witness :
  endpoint_answered
    (invokeClaude (world_answering (inr hello_response)) prompt image)
    empty_trace sample_command (inr hello_response) /\
  InvokeModelCommand.modelId sample_command =
    "anthropic.claude-3-haiku-20240307-v1:0".
Proof.
  assert (H : endpoint_answered
                (invokeClaude (world_answering (inr hello_response)) prompt image)
                empty_trace sample_command (inr hello_response))
    by (vm_compute; reflexivity).
  split; [exact H|].
  exact (proj1 (invokeClaude_request_fields _ _ _ _ _ _ H)).
Defined.

Lemma invokeClaude_fixed_parameters_witness :
  endpoint_answered
    (invokeClaude (world_answering (inr hello_response)) prompt image)
    empty_trace sample_command (inr hello_response) /\
  exists data text parsed,
    fs_readFile (world_answering (inr hello_response)) image = inr data /\
    InvokeModelCommand.body sample_command = VString text /\
    JSON.parse text = Some parsed /\
    JSON.get_path parsed
      ["messages"; "0"; "content"; "0"; "source"; "media_type"] =
      Some (VString "image/png").
Proof.
  assert (H : endpoint_answered
                (invokeClaude (world_answering (inr hello_response)) prompt image)
                empty_trace sample_command (inr hello_response))
    by (vm_compute; reflexivity).
  split; [exact H|].
  destruct (invokeClaude_fixed_parameters _ _ _ _ _ _ H)
    as (data & text & parsed & Hread & Hbody & Hparse & Hmedia & _).
  exists data, text, parsed. auto.
Defined.

End Runs.

(* ===================================================================== *)
(** * Further facts: the loader's text                                    *)
(* ===================================================================== *)

Section LoaderText.
Import Script.

Variable world : World.

Lemma encode_length (data : list byte) :
  String.length (Base64.encode data) = (4 * ((List.length data + 2) / 3))%nat.
Proof.
  induction data as [|a|a b|a b c rest IH] using list_ind3;
    try reflexivity.
  cbn [Base64.encode String.length List.length]. rewrite IH.
  replace (S (S (S (List.length rest))) + 2)%nat
    with (List.length rest + 2 + 1 * 3)%nat by lia.
  rewrite Nat.div_add by discriminate. lia.
Qed.

Lemma alphabet_is_text (n : N) :
  n < 64 -> Base64.is_text_char (Base64.char_of_sextet n) = true.
Proof.
  apply (below_forallb 64
           (fun n => Base64.is_text_char (Base64.char_of_sextet n))).
  vm_compute; reflexivity.
Qed.

Lemma encode_text_chars (data : list byte) :
  Base64.all_chars Base64.is_text_char (Base64.encode data) = true.
Proof.
  induction data as [|a|a b|a b c rest IH] using list_ind3;
    cbn [Base64.encode Base64.all_chars]; unfold Base64.enc;
    rewrite ?alphabet_is_text by apply sextet_lt;
    try rewrite IH; reflexivity.
Qed.

(** X1. The string the loader returns for a readable file has four
    characters for every three bytes of the file, the last group rounded
    up; so it is empty exactly when the file is. *)
Theorem loadImageAsBase64_length (filePath : string) (data : list byte) (t : Trace) :
  fs_readFile world filePath = inr data ->
  exists base64String,
    loadImageAsBase64 world filePath t = (Returned base64String, t) /\
    String.length base64String = (4 * ((List.length data + 2) / 3))%nat /\
    (base64String = "" <-> data = []).
Proof.
  intros Hread. exists (Base64.encode data).
  split; [now apply loadImageAsBase64_readable|].
  split; [apply encode_length|].
  split.
  - intros Hempty. pose proof (encode_length data) as Hlen.
    rewrite Hempty in Hlen. cbn [String.length] in Hlen.
    destruct data as [|a rest]; [reflexivity|].
    cbn [List.length] in Hlen.
    replace (S (List.length rest) + 2)%nat
      with (List.length rest + 1 * 3)%nat in Hlen by lia.
    rewrite Nat.div_add in Hlen by discriminate. lia.
  - intros ->. reflexivity.
Qed.

(** X2. The string the loader returns holds nothing but characters of the
    base64 alphabet and the padding character. *)
Theorem loadImageAsBase64_text_chars (filePath : string) (data : list byte) (t : Trace) :
  fs_readFile world filePath = inr data ->
  exists base64String,
    loadImageAsBase64 world filePath t = (Returned base64String, t) /\
    Base64.all_chars Base64.is_text_char base64String = true.
Proof.
  intros Hread. exists (Base64.encode data).
  split; [now apply loadImageAsBase64_readable | apply encode_text_chars].
Qed.

End LoaderText.

(** X3. Files the loader turns into the same string hold the same bytes,
    wherever they are. *)
Theorem loadImageAsBase64_injective (world1 world2 : World)
  (filePath1 filePath2 : string) (data1 data2 : list byte) (t1 t2 : Trace) :
  fs_readFile world1 filePath1 = inr data1 ->
  fs_readFile world2 filePath2 = inr data2 ->
  fst (Script.loadImageAsBase64 world1 filePath1 t1) =
    fst (Script.loadImageAsBase64 world2 filePath2 t2) ->
  data1 = data2.
Proof.
  intros Hread1 Hread2.
  rewrite (loadImageAsBase64_readable _ _ _ t1 Hread1).
  rewrite (loadImageAsBase64_readable _ _ _ t2 Hread2).
  cbn [fst]. intros [= Hsame].
  pose proof (decode_encode data1) as H1.
  rewrite Hsame, decode_encode in H1. congruence.
Qed.

(* ===================================================================== *)
(** * Further facts: the invoker and the entry point                      *)
(* ===================================================================== *)

Section InvokerFacts.
Import Script.

Variable world : World.

(** [responseBody.content[0].text] is the chain of three reads. *)
Lemma completion_text_get_path (responseBody : jsval) (t : Trace) :
  completion_text responseBody t =
    (match JSON.get_path responseBody ["content"; "0"; "text"] with
     | Some text => Returned text
     | None => Threw TypeError
     end, t).
Proof.
  unfold completion_text, bind, member. cbn [JSON.get_path].
  destruct (JSON.get responseBody "content") as [content|]; [|reflexivity].
  cbn. destruct (JSON.get content "0") as [first|]; [|reflexivity].
  cbn. now destruct (JSON.get first "text").
Qed.

(** X4. When the image cannot be read, [invokeClaude] throws the error of
    the read, whatever its kind (the [catch] of the exchange does not
    reach it), after the loader's one [console.error] call, and the
    endpoint is not contacted. *)
Theorem invokeClaude_image_unreadable (prompt imagePath : string)
  (error : thrown) (t : Trace) :
  fs_readFile world imagePath = inl error ->
  invokeClaude world prompt imagePath t =
    (Threw error,
     with_stderr t [LogString "Error loading the image:"; LogThrown error]) /\
  exchanges (snd (invokeClaude world prompt imagePath t)) = exchanges t.
Proof.
  intros Hread. rewrite (invokeClaude_unreadable _ _ _ _ t Hread).
  split; reflexivity.
Qed.

(** X5. When the image can be read, [invokeClaude] contacts the endpoint
    once, with the command built from the prompt and the base64 text of
    the file, whatever the endpoint answers. *)
Theorem invokeClaude_sends_once (prompt imagePath : string)
  (data : list byte) (t : Trace) :
  fs_readFile world imagePath = inr data ->
  endpoint_answered (invokeClaude world prompt imagePath) t
    (command prompt (Base64.encode data))
    (endpoint world (command prompt (Base64.encode data))).
Proof.
  intros Hread. unfold endpoint_answered.
  pose proof (invokeClaude_readable world prompt _ _ t Hread) as Hrun.
  cbv zeta in Hrun. rewrite Hrun, settle_exchanges. reflexivity.
Qed.

(** X6. A call of [invokeClaude] never writes to standard output, makes at
    most one [console.error] call and at most one exchange with the
    endpoint. *)
Theorem invokeClaude_frame (prompt imagePath : string) (t : Trace) :
  let t' := snd (invokeClaude world prompt imagePath t) in
  stdout t' = stdout t /\
  (stderr t' = stderr t \/ exists args, stderr t' = (stderr t ++ [args])%list) /\
  (exchanges t' = exchanges t \/
   exists cmd reply, exchanges t' = (exchanges t ++ [(cmd, reply)])%list).
Proof.
  cbv zeta.
  destruct (fs_readFile world imagePath) as [error|data] eqn:Hread.
  - rewrite (invokeClaude_unreadable _ _ _ _ t Hread). cbn.
    split; [reflexivity|]. split; [right; eexists; reflexivity | now left].
  - pose proof (invokeClaude_readable world prompt _ _ t Hread) as Hrun.
    cbv zeta in Hrun. rewrite Hrun. clear Hrun.
    set (cmd := command prompt (Base64.encode data)).
    split; [|split].
    + unfold settle.
      destruct (endpoint world cmd) as [err|body].
      * now destruct (instanceof_AccessDeniedException err).
      * destruct (JSON.parse _); [|reflexivity].
        now rewrite completion_text_trace.
    + unfold settle.
      destruct (endpoint world cmd) as [err|body].
      * destruct (instanceof_AccessDeniedException err);
          [right; eexists; reflexivity | now left].
      * destruct (JSON.parse _); [|now left].
        rewrite completion_text_trace. now left.
    + right. exists cmd, (endpoint world cmd).
      now rewrite settle_exchanges.
Qed.

(** X7. What [invokeClaude] returns is the [text] member of the first
    element of [content], whatever JSON value it is; the other members of
    the response and the later elements of [content] play no part. *)
Theorem invokeClaude_returns_text_member (prompt imagePath : string) (t : Trace)
  (cmd : InvokeModelCommand.input) (response_body : list byte)
  (props first : list (string * jsval)) (rest : list jsval) (text : jsval) :
  endpoint_answered (invokeClaude world prompt imagePath) t cmd (inr response_body) ->
  JSON.parse (Utf8.decode response_body) = Some (VObject props) ->
  JSON.lookup "content" props = Some (VArray (VObject first :: rest)) ->
  JSON.lookup "text" first = Some text ->
  invokeClaude world prompt imagePath t =
    (Returned text, with_exchange t cmd (inr response_body)).
Proof.
  intros Hrec Hparse Hcontent Htext.
  destruct (invokeClaude_exchange _ _ _ _ _ _ Hrec) as (data & _ & _ & _ & ->).
  unfold settle. rewrite Hparse, completion_text_get_path.
  cbn. rewrite Hcontent. cbn. rewrite Htext. reflexivity.
Qed.

(** X8. When the response is JSON without a first content element to read
    (the value [null], an object without [content], a [content] that is
    [null] or holds nothing, a first element that is [null]), the read of
    line 93 throws a TypeError, and [invokeClaude] lets it through. *)
Theorem invokeClaude_nothing_to_read (prompt imagePath : string) (t : Trace)
  (cmd : InvokeModelCommand.input) (response_body : list byte)
  (responseBody : jsval) :
  endpoint_answered (invokeClaude world prompt imagePath) t cmd (inr response_body) ->
  JSON.parse (Utf8.decode response_body) = Some responseBody ->
  JSON.get_path responseBody ["content"; "0"] = None \/
  JSON.get_path responseBody ["content"; "0"] = Some VUndefined \/
  JSON.get_path responseBody ["content"; "0"] = Some VNull ->
  invokeClaude world prompt imagePath t =
    (Threw TypeError, with_exchange t cmd (inr response_body)).
Proof.
  intros Hrec Hparse Hfirst.
  destruct (invokeClaude_exchange _ _ _ _ _ _ Hrec) as (data & _ & _ & _ & ->).
  unfold settle. rewrite Hparse, completion_text_get_path.
  assert (Hnone : JSON.get_path responseBody ["content"; "0"; "text"] = None).
  { revert Hfirst. cbn [JSON.get_path].
    destruct (JSON.get responseBody "content") as [content|];
      [|reflexivity].
    destruct (JSON.get content "0") as [first|]; [|reflexivity].
    intros [H | [H | H]]; [discriminate | |]; injection H as ->; reflexivity. }
  now rewrite Hnone.
Qed.

(** X13. The body that goes out carries the file: it is JSON text whose
    one message has the role [user], and the [data] of its image source,
    declared as [base64], decodes to exactly the bytes read from the image
    path. *)
Theorem invokeClaude_request_carries_file (prompt imagePath : string) (t : Trace)
  (cmd : InvokeModelCommand.input) (reply : answer) :
  endpoint_answered (invokeClaude world prompt imagePath) t cmd reply ->
  exists data text parsed base64String,
    fs_readFile world imagePath = inr data /\
    InvokeModelCommand.body cmd = VString text /\
    JSON.parse text = Some parsed /\
    JSON.get_path parsed ["messages"; "0"; "role"] = Some (VString "user") /\
    JSON.get_path parsed ["messages"; "0"; "content"; "0"; "source"; "type"] =
      Some (VString "base64") /\
    JSON.get_path parsed ["messages"; "0"; "content"; "0"; "source"; "data"] =
      Some (VString base64String) /\
    Base64.decode base64String = Some data.
Proof.
  intros Hrec.
  destruct (invokeClaude_exchange _ _ _ _ _ _ Hrec) as (data & Hread & -> & _ & _).
  destruct (command_body_parses prompt (Base64.encode data))
    as (text & p' & b' & Hbody & Hparse & _ & Hb).
  rewrite (Hb (encode_surrogate_free data)) in Hparse.
  exists data, text, (payload p' (Base64.encode data)), (Base64.encode data).
  repeat split; try assumption. apply decode_encode.
Qed.

(** ** The entry point *)

Lemma main_after_invoke (t : Trace) :
  main world t =
    match
      invokeClaude world "Provide me more details about this image"
        "S3Permissions.png"
        (with_stdout
           (with_stdout t
              [LogString (String line_feed "Model: Anthropic Claude v3")])
           [LogString "Prompt: Provide me more details about this image"])
    with
    | (Returned completion, t') =>
        (Returned tt,
         with_stdout
           (with_stdout (with_stdout t' [LogString "Completion:"])
              [LogValue completion])
           [LogString (String line_feed "")])
    | (Threw e, t') => (Threw e, t')
    end.
Proof.
  unfold main, bind, console_log. cbn.
  now destruct (invokeClaude world _ _ _) as [[completion|e] t'].
Qed.

(** X9. When [S3Permissions.png] cannot be read, [main] ends with the
    error of the read: the two header lines are on standard output,
    [Completion:] is not, the loader's line is on standard error and the
    endpoint is not contacted. *)
Theorem main_image_unreadable (error : thrown) (t : Trace) :
  fs_readFile world "S3Permissions.png" = inl error ->
  fst (main world t) = Threw error /\
  stdout (snd (main world t)) = (stdout t ++ main_header)%list /\
  stderr (snd (main world t)) =
    (stderr t ++ [[LogString "Error loading the image:"; LogThrown error]])%list /\
  exchanges (snd (main world t)) = exchanges t.
Proof.
  intros Hread.
  rewrite main_after_invoke, (invokeClaude_unreadable _ _ _ _ _ Hread).
  cbn. rewrite <- app_assoc. auto.
Qed.

(** X10. When the endpoint denies access, [main] ends normally: after the
    header it prints [Completion:], then [undefined], then a line feed,
    and the warning is on standard error. *)
Theorem main_access_denied (data : list byte) (message : string) (t : Trace) :
  fs_readFile world "S3Permissions.png" = inr data ->
  endpoint world
    (command "Provide me more details about this image" (Base64.encode data)) =
    inl (AccessDeniedException message) ->
  fst (main world t) = Returned tt /\
  stdout (snd (main world t)) =
    (stdout t ++ main_header ++ main_report VUndefined)%list /\
  stderr (snd (main world t)) =
    (stderr t ++ [[LogString access_denied_warning]])%list.
Proof.
  intros Hread Hreply.
  pose proof (invokeClaude_readable world
                "Provide me more details about this image" _ _
                (with_stdout
                   (with_stdout t
                      [LogString (String line_feed "Model: Anthropic Claude v3")])
                   [LogString "Prompt: Provide me more details about this image"])
                Hread) as Hrun.
  cbv zeta in Hrun.
  rewrite main_after_invoke, Hrun, Hreply. cbn.
  rewrite <- !app_assoc. auto.
Qed.

(** X11. When the endpoint answers with JSON in which the read
    [content[0].text] gives a value, [main] prints that value between
    [Completion:] and a line feed, writes nothing to standard error and
    ends normally. *)
Theorem main_prints_text (data response_body : list byte)
  (responseBody text : jsval) (t : Trace) :
  fs_readFile world "S3Permissions.png" = inr data ->
  endpoint world
    (command "Provide me more details about this image" (Base64.encode data)) =
    inr response_body ->
  JSON.parse (Utf8.decode response_body) = Some responseBody ->
  JSON.get_path responseBody ["content"; "0"; "text"] = Some text ->
  fst (main world t) = Returned tt /\
  stdout (snd (main world t)) =
    (stdout t ++ main_header ++ main_report text)%list /\
  stderr (snd (main world t)) = stderr t.
Proof.
  intros Hread Hreply Hparse Htext.
  pose proof (invokeClaude_readable world
                "Provide me more details about this image" _ _
                (with_stdout
                   (with_stdout t
                      [LogString (String line_feed "Model: Anthropic Claude v3")])
                   [LogString "Prompt: Provide me more details about this image"])
                Hread) as Hrun.
  cbv zeta in Hrun.
  rewrite main_after_invoke, Hrun, Hreply.
  unfold settle. rewrite Hparse, completion_text_get_path, Htext. cbn.
  rewrite <- !app_assoc. auto.
Qed.

(** X12. Any other failure of the exchange ends [main] with that failure
    after the header: [Completion:] is not printed and standard error
    stays as it was. *)
Theorem main_exchange_failure (data : list byte) (t : Trace) :
  fs_readFile world "S3Permissions.png" = inr data ->
  let reply :=
    endpoint world
      (command "Provide me more details about this image" (Base64.encode data)) in
  (forall err,
     reply = inl err -> instanceof_AccessDeniedException err = false ->
     fst (main world t) = Threw err /\
     stdout (snd (main world t)) = (stdout t ++ main_header)%list /\
     stderr (snd (main world t)) = stderr t)
  /\
  (forall response_body,
     reply = inr response_body ->
     JSON.parse (Utf8.decode response_body) = None ->
     fst (main world t) = Threw SyntaxError /\
     stdout (snd (main world t)) = (stdout t ++ main_header)%list /\
     stderr (snd (main world t)) = stderr t)
  /\
  (forall response_body responseBody,
     reply = inr response_body ->
     JSON.parse (Utf8.decode response_body) = Some responseBody ->
     JSON.get_path responseBody ["content"; "0"; "text"] = None ->
     fst (main world t) = Threw TypeError /\
     stdout (snd (main world t)) = (stdout t ++ main_header)%list /\
     stderr (snd (main world t)) = stderr t).
Proof.
  intros Hread reply.
  pose proof (invokeClaude_readable world
                "Provide me more details about this image" _ _
                (with_stdout
                   (with_stdout t
                      [LogString (String line_feed "Model: Anthropic Claude v3")])
                   [LogString "Prompt: Provide me more details about this image"])
                Hread) as Hrun.
  cbv zeta in Hrun. fold reply in Hrun.
  rewrite main_after_invoke, Hrun. clear Hrun.
  split; [|split].
  - intros err -> Hother. unfold settle. rewrite Hother. cbn.
    rewrite <- app_assoc. auto.
  - intros response_body -> Hparse. unfold settle. rewrite Hparse. cbn.
    rewrite <- app_assoc. auto.
  - intros response_body responseBody -> Hparse Hpath. unfold settle.
    rewrite Hparse, completion_text_get_path, Hpath. cbn.
    rewrite <- app_assoc. auto.
Qed.

(** When the module is loaded by another one, its body does nothing. *)
Lemma module_body_imported (argv1 : option string) (modulePath : string) (t : Trace) :
  argv1 <> Some modulePath ->
  module_body world argv1 modulePath t = (Returned tt, t).
Proof.
  intros Hother. unfold module_body.
  destruct argv1 as [path|]; [|reflexivity].
  destruct (String.eqb_spec path modulePath) as [->|]; [congruence | reflexivity].
Qed.

Lemma module_body_entry (modulePath : string) (t : Trace) :
  module_body world (Some modulePath) modulePath t = main world t.
Proof. unfold module_body. now rewrite String.eqb_refl. Qed.

End InvokerFacts.

(* ===================================================================== *)
(** * Further runs in the sample surroundings                             *)
(* ===================================================================== *)

Section FurtherRuns.
Import Script Samples.

Lemma loadImageAsBase64_length_witness :
  fs_readFile (world_answering (inr hello_response)) image = inr png_bytes /\
  exists base64String,
    loadImageAsBase64 (world_answering (inr hello_response)) image empty_trace =
      (Returned base64String, empty_trace) /\
    String.length base64String = 12%nat.
Proof.
  split; [reflexivity|].
  destruct (loadImageAsBase64_length (world_answering (inr hello_response))
              image png_bytes empty_trace eq_refl)
    as (base64String & Hrun & Hlen & _).
  exists base64String. split; [exact Hrun | exact Hlen].
Defined.

Lemma loadImageAsBase64_text_chars_witness :
  fs_readFile (world_answering (inr hello_response)) image = inr png_bytes /\
  exists base64String,
    loadImageAsBase64 (world_answering (inr hello_response)) image empty_trace =
      (Returned base64String, empty_trace) /\
    Base64.all_chars Base64.is_text_char base64String = true.
Proof.
  split; [reflexivity|].
  apply (loadImageAsBase64_text_chars (world_answering (inr hello_response))
           image png_bytes empty_trace).
  reflexivity.
Defined.

Lemma loadImageAsBase64_injective_witness :
  fst (loadImageAsBase64 (world_answering (inr hello_response)) image empty_trace) =
    fst (loadImageAsBase64 (world_answering (inl access_denied)) image empty_trace) /\
  png_bytes = png_bytes.
Proof.
  split; [reflexivity|].
  apply (loadImageAsBase64_injective
           (world_answering (inr hello_response))
           (world_answering (inl access_denied))
           image image png_bytes png_bytes empty_trace empty_trace);
    reflexivity.
Defined.

Lemma invokeClaude_image_unreadable_witness :
  fs_readFile world_without_files image = inl (SystemError "ENOENT") /\
  invokeClaude world_without_files prompt image empty_trace =
    (Threw (SystemError "ENOENT"),
     with_stderr empty_trace
       [LogString "Error loading the image:"; LogThrown (SystemError "ENOENT")]).
Proof.
  split; [reflexivity|].
  apply (invokeClaude_image_unreadable world_without_files prompt image
           (SystemError "ENOENT") empty_trace).
  reflexivity.
Defined.

Lemma invokeClaude_sends_once_witness :
  fs_readFile (world_answering (inl throttled)) image = inr png_bytes /\
  endpoint_answered
    (invokeClaude (world_answering (inl throttled)) prompt image)
    empty_trace sample_command (inl throttled).
Proof.
  split; [reflexivity|].
  apply (invokeClaude_sends_once (world_answering (inl throttled)) prompt image
           png_bytes empty_trace).
  reflexivity.
Defined.

Lemma invokeClaude_returns_text_member_witness :
  invokeClaude (world_answering (inr two_parts_response)) prompt image
    empty_trace =
    (Returned (VString "A bucket policy."),
     with_exchange empty_trace sample_command (inr two_parts_response)).
Proof.
  refine (invokeClaude_returns_text_member
            (world_answering (inr two_parts_response))
            prompt image empty_trace sample_command two_parts_response
            [("id", VString "msg_01");
             ("content",
              VArray [VObject [("type", VString "text");
                               ("text", VString "A bucket policy.")];
                      VObject [("text", VString "ignored")]])]
            [("type", VString "text"); ("text", VString "A bucket policy.")]
            [VObject [("text", VString "ignored")]]
            (VString "A bucket policy.") _ _ eq_refl eq_refl).
  - vm_compute; reflexivity.
  - vm_compute; reflexivity.
Defined.

Lemma invokeClaude_nothing_to_read_witness :
  invokeClaude (world_answering (inr null_response)) prompt image empty_trace =
    (Threw TypeError,
     with_exchange empty_trace sample_command (inr null_response)) /\
  invokeClaude (world_answering (inr no_content_response)) prompt image
    empty_trace =
    (Threw TypeError,
     with_exchange empty_trace sample_command (inr no_content_response)).
Proof.
  split.
  - refine (invokeClaude_nothing_to_read
              (world_answering (inr null_response))
              prompt image empty_trace sample_command null_response VNull
              _ _ (or_introl eq_refl)).
    + vm_compute; reflexivity.
    + vm_compute; reflexivity.
  - refine (invokeClaude_nothing_to_read
              (world_answering (inr no_content_response))
              prompt image empty_trace sample_command no_content_response
              (VObject [("message", VString "Internal error")])
              _ _ (or_introl eq_refl)).
    + vm_compute; reflexivity.
    + vm_compute; reflexivity.
Defined.

Lemma invokeClaude_request_carries_file_witness :
  endpoint_answered
    (invokeClaude (world_answering (inr hello_response)) prompt image)
    empty_trace sample_command (inr hello_response) /\
  exists text parsed base64String,
    InvokeModelCommand.body sample_command = VString text /\
    JSON.parse text = Some parsed /\
    JSON.get_path parsed ["messages"; "0"; "content"; "0"; "source"; "data"] =
      Some (VString base64String) /\
    Base64.decode base64String = Some png_bytes.
Proof.
  assert (H : endpoint_answered
                (invokeClaude (world_answering (inr hello_response)) prompt image)
                empty_trace sample_command (inr hello_response))
    by (vm_compute; reflexivity).
  split; [exact H|].
  destruct (invokeClaude_request_carries_file _ _ _ _ _ _ H)
    as (data & text & parsed & base64String & Hread & Hbody & Hparse & _ & _
        & Hdata & Hdecode).
  exists text, parsed, base64String.
  injection Hread as <-. auto.
Defined.

Lemma main_image_unreadable_witness :
  fs_readFile world_without_files "S3Permissions.png" =
    inl (SystemError "ENOENT") /\
  fst (main world_without_files empty_trace) = Threw (SystemError "ENOENT") /\
  stdout (snd (main world_without_files empty_trace)) = main_header.
Proof.
  split; [reflexivity|].
  destruct (main_image_unreadable world_without_files (SystemError "ENOENT")
              empty_trace eq_refl) as (Hthrow & Hout & _).
  split; [exact Hthrow | exact Hout].
Defined.

Lemma main_access_denied_witness :
  fst (main (world_answering (inl access_denied)) empty_trace) = Returned tt /\
  stdout (snd (main (world_answering (inl access_denied)) empty_trace)) =
    (main_header ++ main_report VUndefined)%list.
Proof.
  destruct (main_access_denied (world_answering (inl access_denied)) png_bytes
              "You don't have access to the model with the specified model ID."
              empty_trace eq_refl eq_refl) as (Hret & Hout & _).
  split; [exact Hret | exact Hout].
Defined.

Lemma main_prints_text_witness :
  fst (main (world_answering (inr two_parts_response)) empty_trace) =
    Returned tt /\
  stdout (snd (main (world_answering (inr two_parts_response)) empty_trace)) =
    (main_header ++ main_report (VString "A bucket policy."))%list.
Proof.
  assert (Hparse : JSON.parse (Utf8.decode two_parts_response) =
            Some (VObject
                    [("id", VString "msg_01");
                     ("content",
                      VArray [VObject [("type", VString "text");
                                       ("text", VString "A bucket policy.")];
                              VObject [("text", VString "ignored")]])]))
    by (vm_compute; reflexivity).
  destruct (main_prints_text (world_answering (inr two_parts_response))
              png_bytes two_parts_response _ (VString "A bucket policy.")
              empty_trace eq_refl eq_refl Hparse eq_refl) as (Hret & Hout & _).
  split; [exact Hret | exact Hout].
Defined.

Lemma main_exchange_failure_witness :
  fst (main (world_answering (inl throttled)) empty_trace) = Threw throttled /\
  fst (main (world_answering (inr truncated_response)) empty_trace) =
    Threw SyntaxError /\
  fst (main (world_answering (inr empty_content_response)) empty_trace) =
    Threw TypeError.
Proof.
  split; [|split].
  - apply (proj1 (main_exchange_failure (world_answering (inl throttled))
                    png_bytes empty_trace eq_refl) throttled eq_refl eq_refl).
  - refine (proj1 (proj1 (proj2 (main_exchange_failure
                     (world_answering (inr truncated_response))
                     png_bytes empty_trace eq_refl))
                     truncated_response eq_refl _)).
    vm_compute; reflexivity.
  - refine (proj1 (proj2 (proj2 (main_exchange_failure
                     (world_answering (inr empty_content_response))
                     png_bytes empty_trace eq_refl))
                     empty_content_response (VObject [("content", VArray [])])
                     eq_refl _ eq_refl)).
    vm_compute; reflexivity.
Defined.

End FurtherRuns.
